(** * Put-call parity checker: the numeric core of [parity/parity.py], the
      date and dividend arithmetic of [parity/data.py], and the choice of
      expiries and the summary of [main_parity.py]

    The Python code computes on IEEE doubles.  What the properties below
    depend on is the way the code handles the special values: [None], NaN,
    the infinities and zero (Python truthiness in [x or d], [np.isfinite],
    comparisons against NaN).  The model therefore keeps these values
    apart and takes the finite doubles to be real numbers with exact
    arithmetic: rounding, the sign of zero and overflow of finite results
    to an infinity are outside the model.  [math.exp] raises
    [OverflowError] instead of returning an infinity: the functions of
    [parity.py] are given twice, as the values they compute when [math.exp]
    returns, and with that exception ([theoretical_rhs_py] and the like). *)

From Stdlib Require Import Reals Lra ZArith.
From stdpp Require Import gmap strings list fin_maps.

Open Scope R_scope.

(** ** Python floats *)

Module PyFloat.

Inductive pyfloat : Type :=
| Fin (x : R)
| PInf
| NInf
| NaN.

(** A Python value that is either [None] or a float. *)
Abbreviation pyval := (option pyfloat).

Definition Rltb (x y : R) : bool := if Rlt_dec x y then true else false.
Definition Reqb (x y : R) : bool := if Req_dec_T x y then true else false.

(** [np.isfinite] *)
Definition isfinite (v : pyfloat) : bool :=
  match v with Fin _ => true | _ => false end.

(** [a > b] and [a < b] on floats: every comparison with NaN is false. *)
Definition fgt (a b : pyfloat) : bool :=
  match a, b with
  | NaN, _ | _, NaN => false
  | Fin x, Fin y => Rltb y x
  | PInf, PInf => false
  | PInf, _ => true
  | _, NInf => match a with NInf => false | _ => true end
  | _, _ => false
  end.

Definition flt (a b : pyfloat) : bool := fgt b a.

(** Truth value of a float: only zero is false; NaN is true. *)
Definition truthy (v : pyfloat) : bool :=
  match v with Fin x => negb (Reqb x 0) | _ => true end.

(** [x or d] where [x] is [None] or a float and [d] is a float. *)
Definition py_or (x : pyval) (d : pyfloat) : pyfloat :=
  match x with
  | None => d
  | Some v => if truthy v then v else d
  end.

Definition fneg (a : pyfloat) : pyfloat :=
  match a with
  | Fin x => Fin (- x)
  | PInf => NInf
  | NInf => PInf
  | NaN => NaN
  end.

Definition fadd (a b : pyfloat) : pyfloat :=
  match a, b with
  | NaN, _ | _, NaN => NaN
  | Fin x, Fin y => Fin (x + y)
  | PInf, NInf | NInf, PInf => NaN
  | PInf, _ | _, PInf => PInf
  | NInf, _ | _, NInf => NInf
  end.

Definition fsub (a b : pyfloat) : pyfloat := fadd a (fneg b).

(** An infinity of sign [pos] times the finite [y]. *)
Definition inf_times (pos : bool) (y : R) : pyfloat :=
  if Rltb 0 y then (if pos then PInf else NInf)
  else if Rltb y 0 then (if pos then NInf else PInf)
  else NaN.

Definition fmul (a b : pyfloat) : pyfloat :=
  match a, b with
  | NaN, _ | _, NaN => NaN
  | Fin x, Fin y => Fin (x * y)
  | PInf, Fin y | Fin y, PInf => inf_times true y
  | NInf, Fin y | Fin y, NInf => inf_times false y
  | PInf, PInf | NInf, NInf => PInf
  | PInf, NInf | NInf, PInf => NaN
  end.

(** Division by a float literal [c] of the source, which is positive. *)
Definition fdivc (a : pyfloat) (c : R) : pyfloat :=
  match a with
  | Fin x => Fin (x / c)
  | v => v
  end.

(** The value of [math.exp] and [np.exp].  [np.exp] always returns;
    [math.exp] raises on overflow, see [math_exp] below. *)
Definition fexp (a : pyfloat) : pyfloat :=
  match a with
  | Fin x => Fin (exp x)
  | PInf => PInf
  | NInf => Fin 0
  | NaN => NaN
  end.

(** [max(t, 0.0)]: Python keeps the first argument unless the second is
    greater. *)
Definition fmax0 (t : pyfloat) : pyfloat :=
  if fgt (Fin 0) t then Fin 0 else t.

End PyFloat.
Export PyFloat.

(** ** parity/parity.py *)

Record ParityInputs : Type := mkParityInputs {
  S : pyfloat;
  K : pyfloat;
  tau : pyfloat;
  r : pyfloat;
  C_mid : pyfloat;
  P_mid : pyfloat;
  C_bid : pyval;
  C_ask : pyval;
  P_bid : pyval;
  P_ask : pyval;
  pv_div : pyfloat;
  stock_spread_cents : pyval
}.

(** The test of the list comprehension and of the [last] branch:
    [v is not None and np.isfinite(v) and v > 0]. *)
Definition usable (v : pyval) : bool :=
  match v with
  | None => false
  | Some f => isfinite f && fgt f (Fin 0)
  end.

Definition _safe_mid (bid ask last : pyval) : pyfloat :=
  let vals := omap (fun v : pyval => if usable v then v else None) [bid; ask] in
  match vals with
  | [v0; v1] => fmul (Fin 0.5) (fadd v0 v1)
  | _ =>
      match last with
      | Some l => if usable last then l else NaN
      | None => NaN
      end
  end.

Definition theoretical_rhs (S K tau r pv_div : pyfloat) : pyfloat :=
  fsub (fsub S (fmul K (fexp (fmul (fneg r) tau)))) pv_div.

Definition parity_gap_mid (pi : ParityInputs) : pyfloat :=
  let rhs := theoretical_rhs (S pi) (K pi) (tau pi) (r pi) (pv_div pi) in
  fsub (fsub (C_mid pi) (P_mid pi)) rhs.

Definition parity_gap_executable (pi : ParityInputs)
    (direction_hint : option string) : pyfloat :=
  let stock_half_spread := fdivc (py_or (stock_spread_cents pi) (Fin 1)) 200 in
  let S_bid := fsub (S pi) stock_half_spread in
  let S_ask := fadd (S pi) stock_half_spread in
  let gap_mid : option pyfloat :=
    match direction_hint with None => Some (parity_gap_mid pi) | Some _ => None end in
  let go_A :=
    match gap_mid with Some g => fgt g (Fin 0) | None => false end
    || bool_decide (direction_hint = Some "A"%string) in
  let go_B :=
    match gap_mid with Some g => flt g (Fin 0) | None => false end
    || bool_decide (direction_hint = Some "B"%string) in
  if go_A then
    let lhs_exec := fsub (py_or (C_bid pi) (Fin 0)) (py_or (P_ask pi) (Fin 0)) in
    let rhs_exec :=
      fsub (fsub S_ask (fmul (K pi) (fexp (fmul (fneg (r pi)) (tau pi))))) (pv_div pi) in
    fsub lhs_exec rhs_exec
  else if go_B then
    let lhs_exec :=
      fsub (fsub S_bid (fmul (K pi) (fexp (fmul (fneg (r pi)) (tau pi))))) (pv_div pi) in
    let rhs_exec := fsub (py_or (C_ask pi) (Fin 0)) (py_or (P_bid pi) (Fin 0)) in
    fsub lhs_exec rhs_exec
  else Fin 0.

(** Exceptions the modelled code can raise, and results of calls that may
    raise. *)
Inductive exn : Type := KeyError | TypeError | ValueError | OverflowError.

Inductive result (A : Type) : Type :=
| Ok (a : A)
| Raise (e : exn).
Arguments Ok {A} a.
Arguments Raise {A} e.

Definition rbind {A B : Type} (m : result A) (f : A -> result B) : result B :=
  match m with Ok a => f a | Raise e => Raise e end.

Notation "x <-- m ;; k" := (rbind m (fun x => k))
  (at level 100, m at next level, right associativity).

(** A chain row ([pd.Series]) and the [common] dict: string keys, each
    value [None] or a float. *)

(** [d.get(key)]: [None] when the key is absent. *)
Definition get (d : gmap string pyval) (key : string) : pyval :=
  match d !! key with Some v => v | None => None end.

(** [d[key]]: raises [KeyError] when the key is absent. *)
Definition getitem (d : gmap string pyval) (key : string) : result pyval :=
  match d !! key with Some v => Ok v | None => Raise KeyError end.

(** [float(v)] raises [TypeError] on [None]; the same exception comes from
    arithmetic on [None]. *)
Definition to_float (v : pyval) : result pyfloat :=
  match v with Some f => Ok f | None => Raise TypeError end.

(** The result dict of [compute_row], with its two keys. *)
Record Metrics : Type := mkMetrics {
  gap_mid : pyfloat;
  gap_exec : pyfloat
}.

(** The [ParityInputs(...)] expression of [compute_row].  The keyword
    arguments are evaluated in the order written, so the [KeyError]s come
    first; [S], [tau] and [r] are passed on unconverted, and a [None] there
    raises [TypeError] at the first arithmetic of [parity_gap_mid]. *)
Definition build_inputs (row common : gmap string pyval) : result ParityInputs :=
  let C_mid := _safe_mid (get row "call_bid") (get row "call_ask") (get row "call_lastPrice") in
  let P_mid := _safe_mid (get row "put_bid") (get row "put_ask") (get row "put_lastPrice") in
  s <-- getitem common "S" ;;
  k0 <-- getitem row "strike" ;;
  k <-- to_float k0 ;;
  t <-- getitem common "tau" ;;
  rr <-- getitem common "r" ;;
  rf <-- to_float rr ;;
  tf <-- to_float t ;;
  sf <-- to_float s ;;
  Ok {| S := sf; K := k; tau := tf; r := rf;
        C_mid := if isfinite C_mid then C_mid else NaN;
        P_mid := if isfinite P_mid then P_mid else NaN;
        C_bid := Some (py_or (get row "call_bid") NaN);
        C_ask := Some (py_or (get row "call_ask") NaN);
        P_bid := Some (py_or (get row "put_bid") NaN);
        P_ask := Some (py_or (get row "put_ask") NaN);
        pv_div := py_or (get common "pv_div") (Fin 0);
        stock_spread_cents := Some (py_or (get common "stock_spread_cents") (Fin 1)) |}.

Definition compute_row (row common : gmap string pyval) : result Metrics :=
  pi <-- build_inputs row common ;;
  Ok {| gap_mid := parity_gap_mid pi;
        gap_exec := parity_gap_executable pi None |}.

(** ** parity/parity.py with the overflow of [math.exp] *)

(** The largest double, [(2^53 - 1) * 2^971]. *)
Definition max_double : R := IZR ((2 ^ 53 - 1) * 2 ^ 971).

(** [math.exp(x)]: [OverflowError] when the result is beyond the largest
    double; an infinite or NaN argument does not raise. *)
Definition math_exp (a : pyfloat) : result pyfloat :=
  match a with
  | Fin x => if Rle_dec (exp x) max_double then Ok (Fin (exp x))
             else Raise OverflowError
  | v => Ok (fexp v)
  end.

Definition theoretical_rhs_py (S K tau r pv_div : pyfloat) : result pyfloat :=
  e <-- math_exp (fmul (fneg r) tau) ;;
  Ok (fsub (fsub S (fmul K e)) pv_div).

Definition parity_gap_mid_py (pi : ParityInputs) : result pyfloat :=
  rhs <-- theoretical_rhs_py (S pi) (K pi) (tau pi) (r pi) (pv_div pi) ;;
  Ok (fsub (fsub (C_mid pi) (P_mid pi)) rhs).

Definition parity_gap_executable_py (pi : ParityInputs)
    (direction_hint : option string) : result pyfloat :=
  let stock_half_spread := fdivc (py_or (stock_spread_cents pi) (Fin 1)) 200 in
  let S_bid := fsub (S pi) stock_half_spread in
  let S_ask := fadd (S pi) stock_half_spread in
  gap_mid <-- match direction_hint with
              | None => g <-- parity_gap_mid_py pi ;; Ok (Some g)
              | Some _ => Ok None
              end ;;
  let go_A :=
    match gap_mid with Some g => fgt g (Fin 0) | None => false end
    || bool_decide (direction_hint = Some "A"%string) in
  let go_B :=
    match gap_mid with Some g => flt g (Fin 0) | None => false end
    || bool_decide (direction_hint = Some "B"%string) in
  if go_A then
    let lhs_exec := fsub (py_or (C_bid pi) (Fin 0)) (py_or (P_ask pi) (Fin 0)) in
    e <-- math_exp (fmul (fneg (r pi)) (tau pi)) ;;
    let rhs_exec := fsub (fsub S_ask (fmul (K pi) e)) (pv_div pi) in
    Ok (fsub lhs_exec rhs_exec)
  else if go_B then
    e <-- math_exp (fmul (fneg (r pi)) (tau pi)) ;;
    let lhs_exec := fsub (fsub S_bid (fmul (K pi) e)) (pv_div pi) in
    let rhs_exec := fsub (py_or (C_ask pi) (Fin 0)) (py_or (P_bid pi) (Fin 0)) in
    Ok (fsub lhs_exec rhs_exec)
  else Ok (Fin 0).

Definition compute_row_py (row common : gmap string pyval) : result Metrics :=
  pi <-- build_inputs row common ;;
  gap_mid <-- parity_gap_mid_py pi ;;
  gap_exec <-- parity_gap_executable_py pi None ;;
  Ok {| gap_mid := gap_mid; gap_exec := gap_exec |}.

(** ** parity/data.py: present value of dividends *)

Section Dividends.

(** [pd.to_datetime(expiry).to_pydatetime().replace(tzinfo=None)] as an
    instant in nanoseconds; [None] when the string does not parse and the
    call raises. *)
Variable to_datetime : string -> option Z.

Definition ns_per_day : Z := 86400000000000.

(** [delta.days] of a time difference: whole days, rounded down. *)
Definition days (delta : Z) : Z := (delta / ns_per_day)%Z.

(** One entry of the mask
    [(div_series.index > start) & (div_series.index <= exp)]. *)
Definition in_window (start exp : Z) (p : Z * pyfloat) : bool :=
  (start <? p.1)%Z && (p.1 <=? exp)%Z.

(** The body of the loop over [future_divs.items()]. *)
Definition pv_step (start : Z) (r_annual : pyfloat) (pv : pyfloat)
    (p : Z * pyfloat) : pyfloat :=
  let t := Fin (IZR (days (p.1 - start)) / 365.25) in
  fadd pv (fmul p.2 (fexp (fmul (fneg r_annual) (fmax0 t)))).

(** A dividend series is a list of (ex-date, amount) in index order; the
    argument is [None] when the caller passes [None]. *)
Definition pv_of_dividends (div_series : option (list (Z * pyfloat)))
    (start : Z) (expiry : string) (r_annual : pyfloat) : result pyfloat :=
  match div_series with
  | None => Ok (Fin 0)
  | Some [] => Ok (Fin 0)
  | Some ds =>
      match to_datetime expiry with
      | None => Raise ValueError
      | Some exp =>
          match List.filter (in_window start exp) ds with
          | [] => Ok (Fin 0)
          | future_divs => Ok (fold_left (pv_step start r_annual) future_divs (Fin 0))
          end
      end
  end.

(** [time_to_expiry_years], with the instant read from
    [_now_utc_naive()] as the argument [now]:
    [max(delta.days, 0) / 365.25]. *)
Definition time_to_expiry_years (now : Z) (expiry : string) : result pyfloat :=
  match to_datetime expiry with
  | None => Raise ValueError
  | Some exp => Ok (Fin (IZR (Z.max (days (exp - now)) 0) / 365.25))
  end.

(** ** main_parity.py: the choice of expiries *)

(** The test [dte >= min_dte and dte <= max_dte]. *)
Definition dte_in_range (min_dte max_dte dte : Z) : bool :=
  (min_dte <=? dte)%Z && (dte <=? max_dte)%Z.

(** The loop over [all_exps]; [kept] is the list built so far.  An expiry
    that does not parse raises there and then. *)
Fixpoint choose_loop (now min_dte max_dte : Z) (all_exps kept : list string)
    : result (list string) :=
  match all_exps with
  | [] => Ok kept
  | e :: rest =>
      match to_datetime e with
      | None => Raise ValueError
      | Some t =>
          let dte := days (t - now) in
          choose_loop now min_dte max_dte rest
            (if dte_in_range min_dte max_dte dte then kept ++ [e] else kept)
      end
  end.

(** [choose_expiries]: [all_exps] is what [list_expiries(ticker)] returns
    and [now] what [_now_utc_naive()] returns; [expiries] is [None] or a
    list, and an empty list is false in [if expiries]. *)
Definition choose_expiries (all_exps : list string) (now : Z)
    (expiries : option (list string)) (min_dte max_dte : Z)
    : result (list string) :=
  match expiries with
  | Some (e :: es) => Ok (e :: es)
  | _ =>
      kept <-- choose_loop now min_dte max_dte all_exps [] ;;
      Ok (take 20 kept)
  end.

End Dividends.

(** ** main_parity.py: the summary of one expiry *)

Definition fabs (a : pyfloat) : pyfloat :=
  match a with
  | Fin x => Fin (Rabs x)
  | NInf => PInf
  | v => v
  end.

Definition count_true (x : list bool) : nat :=
  length (List.filter (fun b : bool => b) x).

(** [pct(x)]: [100.0 * x.mean() if len(x) else 0.0] on a boolean column;
    the mean of booleans is the share of [True]. *)
Definition pct (x : list bool) : pyfloat :=
  match x with
  | [] => Fin 0
  | _ => fmul (Fin 100) (Fin (INR (count_true x) / INR (length x)))
  end.

Definition is_nan (a : pyfloat) : bool :=
  match a with NaN => true | _ => false end.

(** Pandas reductions skip NaN. *)
Definition dropna (l : list pyfloat) : list pyfloat :=
  List.filter (fun a => negb (is_nan a)) l.

(** [Series.mean()]: NaN when nothing is left. *)
Definition series_mean (l : list pyfloat) : pyfloat :=
  match dropna l with
  | [] => NaN
  | vs => fdivc (fold_left fadd vs (Fin 0)) (INR (length vs))
  end.

(** [Series.max()]: NaN when nothing is left. *)
Definition series_max (l : list pyfloat) : pyfloat :=
  match dropna l with
  | [] => NaN
  | v :: vs => fold_left (fun m a => if fgt a m then a else m) vs v
  end.

Record Summary : Type := mkSummary {
  n_strikes : nat;
  pct_mid_gt_1c : pyfloat;
  pct_mid_gt_5c : pyfloat;
  pct_exec_gt_0 : pyfloat;
  avg_abs_mid : pyfloat;
  max_abs_mid : pyfloat
}.

(** The function [summarize] applies to the rows [g] of one expiry, with
    [th_small = 0.01] and [th_medium = 0.05]. *)
Definition summarize_group (g : list Metrics) : Summary :=
  let abs_mid := map (fun m => fabs (gap_mid m)) g in
  {| n_strikes := length g;
     pct_mid_gt_1c := pct (map (fun a => fgt a (Fin 0.01)) abs_mid);
     pct_mid_gt_5c := pct (map (fun a => fgt a (Fin 0.05)) abs_mid);
     pct_exec_gt_0 := pct (map (fun m => fgt (gap_exec m) (Fin 0)) g);
     avg_abs_mid := series_mean abs_mid;
     max_abs_mid := series_max abs_mid |}.

(** ** The present value as the specification words it *)

(** Sum of a list of floats. *)
Definition fsum (l : list pyfloat) : pyfloat := foldr fadd (Fin 0) l.

(** A day in nanoseconds. *)
Definition day_ns : Z := 24 * 60 * 60 * 1000000000.

(** The whole days elapsed from [start] to [d]: the elapsed time over a
    day, the fraction of a day dropped. *)
Definition whole_days (start d : Z) : Z := Z.quot (d - start) day_ns.

(** [t]: the whole days from [start] to the ex-date over 365.25, not
    below 0. *)
Definition years_since (start d : Z) : R :=
  Rmax (IZR (whole_days start d) / 365.25) 0.

(** [amount * exp(-r_annual * t)]. *)
Definition discounted (start : Z) (r_annual : pyfloat) (p : Z * pyfloat) : pyfloat :=
  fmul p.2 (fexp (fmul (fneg r_annual) (Fin (years_since start p.1)))).

(** The dividends with ex-date strictly after [start] and at or before
    [exp], each discounted, summed. *)
Definition pv_spec (ds : list (Z * pyfloat)) (start exp : Z) (r_annual : pyfloat) : pyfloat :=
  fsum (map (discounted start r_annual)
            (List.filter (fun p => bool_decide (start < p.1 ∧ p.1 ≤ exp)%Z) ds)).

(** ** Vocabulary of the specification *)

(** A quote that is present, finite and strictly positive. *)
Definition positive_finite (v : pyval) : Prop :=
  exists x, v = Some (Fin x) /\ 0 < x.

(** A leg that is [None] or a finite float. *)
Definition leg_ok (v : pyval) : Prop := v = None \/ exists x, v = Some (Fin x).

(** A quote field of a row that carries no information: the key is absent
    or its value is [None] (both read as [None] by [row.get]) or NaN. *)
Definition missing (row : gmap string pyval) (key : string) : Prop :=
  get row key = None \/ get row key = Some NaN.

(** A quote value that [compute_row] cannot tell from an absent key. *)
Definition void (v : pyval) : Prop :=
  v = None \/ v = Some NaN \/ v = Some (Fin 0).

Definition quote_keys : list string :=
  ["call_bid"; "call_ask"; "call_lastPrice";
   "put_bid"; "put_ask"; "put_lastPrice"]%string.


(** The call [math.exp(x)] returns. *)
Definition exp_returns (x : pyfloat) : Prop := exists y, math_exp x = Ok y.

(** The discounted strike [K*exp(-r*tau)]. *)
Definition disc_strike (pi : ParityInputs) : pyfloat :=
  fmul (K pi) (fexp (fmul (fneg (r pi)) (tau pi))).

(** The two directions of the executable gap for a given stock half-spread
    and given option legs. *)
Definition exec_A (pi : ParityInputs) (half c_bid p_ask : pyfloat) : pyfloat :=
  fsub (fsub c_bid p_ask) (fsub (fsub (fadd (S pi) half) (disc_strike pi)) (pv_div pi)).

Definition exec_B (pi : ParityInputs) (half c_ask p_bid : pyfloat) : pyfloat :=
  fsub (fsub (fsub (fsub (S pi) half) (disc_strike pi)) (pv_div pi)) (fsub c_ask p_bid).

(** The stock half-spread of [parity_gap_executable]:
    [(pi.stock_spread_cents or 1.0) / 200.0]. *)
Definition half_used (pi : ParityInputs) : pyfloat :=
  fdivc (py_or (stock_spread_cents pi) (Fin 1)) 200.

(** [half = stock_spread_cents / 200.0], as the specification has it. *)
Definition half_spec (cents : pyfloat) : pyfloat := fdivc cents 200.

(** Direction selection: A on hint ["A"] or, without a hint, on a positive
    mid gap; B on hint ["B"] or, without a hint, on a negative mid gap. *)
Definition selects_A (pi : ParityInputs) (hint : option string) : Prop :=
  hint = Some "A"%string \/ (hint = None /\ fgt (parity_gap_mid pi) (Fin 0) = true).

Definition selects_B (pi : ParityInputs) (hint : option string) : Prop :=
  hint = Some "B"%string \/ (hint = None /\ flt (parity_gap_mid pi) (Fin 0) = true).

(** ** Sample inputs *)

(** The scenario of the specification: spot and strike 100, a quarter of a
    year to expiry, rate 5%, no dividends, call 4.9/5.1 and put 2.9/3.1. *)
Definition scenario : ParityInputs :=
  {| S := Fin 100; K := Fin 100; tau := Fin 0.25; r := Fin 0.05;
     C_mid := Fin 5; P_mid := Fin 3;
     C_bid := Some (Fin 4.9); C_ask := Some (Fin 5.1);
     P_bid := Some (Fin 2.9); P_ask := Some (Fin 3.1);
     pv_div := Fin 0; stock_spread_cents := Some (Fin 1) |}.

(** The same with a zero stock spread. *)
Definition scenario_zero_spread : ParityInputs :=
  {| S := Fin 100; K := Fin 100; tau := Fin 0.25; r := Fin 0.05;
     C_mid := Fin 5; P_mid := Fin 3;
     C_bid := Some (Fin 4.9); C_ask := Some (Fin 5.1);
     P_bid := Some (Fin 2.9); P_ask := Some (Fin 3.1);
     pv_div := Fin 0; stock_spread_cents := Some (Fin 0) |}.

(** The same with the call bid missing, as [compute_row] passes it on. *)
Definition scenario_no_call_bid : ParityInputs :=
  {| S := Fin 100; K := Fin 100; tau := Fin 0.25; r := Fin 0.05;
     C_mid := Fin 5; P_mid := Fin 3;
     C_bid := Some NaN; C_ask := Some (Fin 5.1);
     P_bid := Some (Fin 2.9); P_ask := Some (Fin 3.1);
     pv_div := Fin 0; stock_spread_cents := Some (Fin 1) |}.

Definition common_ctx : gmap string pyval :=
  <["S" := Some (Fin 100)]> (<["tau" := Some (Fin 0.25)]> (<["r" := Some (Fin 0.05)]>
  (<["pv_div" := Some (Fin 0)]> (<["stock_spread_cents" := Some (Fin 1)]> ∅)))).

(** A chain row without a call bid: the call trades last at 5. *)
Definition row_no_call_bid : gmap string pyval :=
  <["strike" := Some (Fin 100)]> (<["call_ask" := Some (Fin 5.1)]>
  (<["call_lastPrice" := Some (Fin 5)]> (<["put_bid" := Some (Fin 2.9)]>
  (<["put_ask" := Some (Fin 3.1)]> ∅)))).

(** A chain row with a strike and no quote at all. *)
Definition row_strike_only : gmap string pyval :=
  <["strike" := Some (Fin 100)]> ∅.

(** A dividend series with ex-dates 10, 40 and 400 days after instant 0
    and one before it; expiries parse to day 100. *)
Definition sample_divs : list (Z * pyfloat) :=
  [((-5 * ns_per_day)%Z, Fin 0.5); ((10 * ns_per_day)%Z, Fin 0.5);
   ((40 * ns_per_day + 1)%Z, Fin 0.6); ((400 * ns_per_day)%Z, Fin 0.7)].

Definition sample_to_datetime (expiry : string) : option Z :=
  Some (100 * ns_per_day)%Z.

(** Inputs with the two mids replaced. *)
Definition set_mids (pi : ParityInputs) (c p : pyfloat) : ParityInputs :=
  {| S := S pi; K := K pi; tau := tau pi; r := r pi;
     C_mid := c; P_mid := p;
     C_bid := C_bid pi; C_ask := C_ask pi; P_bid := P_bid pi; P_ask := P_ask pi;
     pv_div := pv_div pi; stock_spread_cents := stock_spread_cents pi |}.

(** Inputs all of whose fields are finite. *)
Definition finite_inputs (s k t rr d cm pm cb ca pb pa cents : R) : ParityInputs :=
  {| S := Fin s; K := Fin k; tau := Fin t; r := Fin rr;
     C_mid := Fin cm; P_mid := Fin pm;
     C_bid := Some (Fin cb); C_ask := Some (Fin ca);
     P_bid := Some (Fin pb); P_ask := Some (Fin pa);
     pv_div := Fin d; stock_spread_cents := Some (Fin cents) |}.

(** A side of a row has a mid: a usable bid and ask, or a usable last. *)
Definition has_mid (row : gmap string pyval) (bid ask last : string) : bool :=
  usable (get row bid) && usable (get row ask) || usable (get row last).

(** A dict entry that is a float. *)
Definition is_float (v : option pyval) : Prop := exists f, v = Some (Some f).

(** A dividend series with finite amounts. *)
Definition fin_divs (l : list (Z * R)) : list (Z * pyfloat) :=
  map (fun p : Z * R => (p.1, Fin p.2)) l.

(** The years from [start] to the ex-date [d] that the discounting uses. *)
Definition year_frac (start d : Z) : R :=
  Rmax (IZR (days (d - start)) / 365.25) 0.

(** The discounted amounts of a finite series, summed. *)
Definition pv_real (start : Z) (rate : R) (l : list (Z * R)) : R :=
  foldr (fun p acc => p.2 * exp (- rate * year_frac start p.1) + acc) 0 l.

(** The amounts of a finite series, summed. *)
Definition amount_sum (l : list (Z * R)) : R :=
  foldr (fun p acc => p.2 + acc) 0 l.

(** The dividends with ex-date after [start] and not after [exp]. *)
Definition window (start exp : Z) (l : list (Z * R)) : list (Z * R) :=
  List.filter (fun p : Z * R => (start <? p.1)%Z && (p.1 <=? exp)%Z) l.

(** The sample series with its amounts as reals. *)
Definition sample_amounts : list (Z * R) :=
  [((-5 * ns_per_day)%Z, 0.5); ((10 * ns_per_day)%Z, 0.5);
   ((40 * ns_per_day + 1)%Z, 0.6); ((400 * ns_per_day)%Z, 0.7)].

(** An expiry that parses and whose whole days from [now] lie between
    [min_dte] and [max_dte]. *)
Definition dte_ok (to_datetime : string -> option Z) (now min_dte max_dte : Z)
    (e : string) : bool :=
  match to_datetime e with
  | Some t => dte_in_range min_dte max_dte (days (t - now))
  | None => false
  end.

(** A parser that only knows the dates of a table of (string, day). *)
Definition table_to_datetime (table : list (string * Z)) (e : string) : option Z :=
  (fun d => d * ns_per_day)%Z <$> (list_to_map table : gmap string Z) !! e.

Definition sample_table : list (string * Z) :=
  [("2030-01-04", 3); ("2030-01-11", 10); ("2030-01-18", 17);
   ("2030-06-21", 171)]%string%Z.

(** The sum of a list of reals. *)
Definition Rsum (xs : list R) : R := foldr Rplus 0 xs.

(** A mid gap as [compute_row] gives it for a finite market context: NaN
    or finite. *)
Definition known_or_nan (m : Metrics) : Prop :=
  gap_mid m = NaN \/ exists x, gap_mid m = Fin x.

(** A series with ex-dates inside the day: 10 days and 9 hours, and 40 days
    and 12 hours after instant 0, one before it and one 400 days after. *)
Definition intraday_divs : list (Z * pyfloat) :=
  [((-5 * day_ns)%Z, Fin 0.5); ((10 * day_ns + 9 * 3600000000000)%Z, Fin 0.5);
   ((40 * day_ns + 12 * 3600000000000)%Z, Fin 0.6); ((400 * day_ns)%Z, Fin 0.7)].

(** * Properties *)

(** ** Float arithmetic *)

Lemma Rltb_true x y : Rltb x y = true <-> x < y.
Proof. unfold Rltb; destruct (Rlt_dec x y); split; intros; (done || lra). Qed.

Lemma Rltb_false x y : Rltb x y = false <-> y <= x.
Proof. unfold Rltb; destruct (Rlt_dec x y); split; intros; (done || lra). Qed.

Lemma Reqb_true x y : Reqb x y = true <-> x = y.
Proof. unfold Reqb; destruct (Req_dec_T x y); split; intros; done. Qed.

Lemma Reqb_false x y : Reqb x y = false <-> x <> y.
Proof. unfold Reqb; destruct (Req_dec_T x y); split; intros; done. Qed.

Lemma fadd_comm a b : fadd a b = fadd b a.
Proof. destruct a, b; simpl; try done; f_equal; lra. Qed.

Lemma fadd_assoc a b c : fadd a (fadd b c) = fadd (fadd a b) c.
Proof. destruct a, b, c; simpl; try done; f_equal; lra. Qed.

Lemma fadd_0_l a : fadd (Fin 0) a = a.
Proof. destruct a; simpl; try done; f_equal; lra. Qed.

Lemma fadd_0_r a : fadd a (Fin 0) = a.
Proof. rewrite fadd_comm; apply fadd_0_l. Qed.

Lemma fadd_NaN_l a : fadd NaN a = NaN.
Proof. done. Qed.

Lemma fadd_NaN_r a : fadd a NaN = NaN.
Proof. by destruct a. Qed.

Lemma fsub_NaN_l a : fsub NaN a = NaN.
Proof. done. Qed.

Lemma fsub_NaN_r a : fsub a NaN = NaN.
Proof. by destruct a. Qed.

Lemma fgt_NaN_l a : fgt NaN a = false.
Proof. done. Qed.

Lemma fgt_NaN_r a : fgt a NaN = false.
Proof. by destruct a. Qed.

(** On a float, [x or 0.0] is [x] itself: the default only replaces zero
    by zero. *)
Lemma py_or_0_float v : py_or (Some v) (Fin 0) = v.
Proof.
  unfold py_or, truthy. destruct v as [x| | |]; try done.
  destruct (Reqb x 0) eqn:E; simpl; [|done].
  apply Reqb_true in E. by subst.
Qed.

Lemma py_or_None d : py_or None d = d.
Proof. done. Qed.

Lemma py_or_NaN d : py_or (Some NaN) d = NaN.
Proof. done. Qed.

Lemma py_or_zero d : py_or (Some (Fin 0)) d = d.
Proof.
  unfold py_or, truthy. destruct (Reqb 0 0) eqn:E; [done|].
  by apply Reqb_false in E.
Qed.

Lemma py_or_nonzero x d : x <> 0 -> py_or (Some (Fin x)) d = Fin x.
Proof.
  intros Hx. unfold py_or, truthy. destruct (Reqb x 0) eqn:E; [|done].
  by apply Reqb_true in E.
Qed.

(** ** The mid-price resolver *)

Lemma usable_positive_finite v : usable v = true <-> positive_finite v.
Proof.
  unfold usable, positive_finite. split.
  - destruct v as [[x| | |]|]; simpl; try done.
    intros H%Rltb_true. by exists x.
  - intros (x & -> & Hx). simpl. by apply Rltb_true.
Qed.

Lemma usable_zero : usable (Some (Fin 0)) = false.
Proof. simpl. apply Rltb_false. lra. Qed.

Lemma usable_NaN : usable (Some NaN) = false.
Proof. done. Qed.

Lemma safe_mid_both bid ask last b a :
  bid = Some (Fin b) -> ask = Some (Fin a) -> 0 < b -> 0 < a ->
  _safe_mid bid ask last = Fin ((b + a) / 2).
Proof.
  intros -> -> Hb Ha. unfold _safe_mid. simpl.
  apply Rltb_true in Hb, Ha. rewrite Hb, Ha. simpl. f_equal. lra.
Qed.

Lemma safe_mid_fallback bid ask last :
  usable bid && usable ask = false ->
  _safe_mid bid ask last =
    match last with Some l => if usable last then l else NaN | None => NaN end.
Proof.
  unfold _safe_mid. simpl omap.
  destruct (usable bid) eqn:Eb, (usable ask) eqn:Ea; try done;
    destruct bid, ask; done.
Qed.

(** C4: [_safe_mid] returns the mean of bid and ask when both are present,
    finite and strictly positive, whatever [last] is; otherwise [last] when
    that is present, finite and strictly positive; otherwise NaN, the
    representation of unknown, which is not zero. *)
Theorem safe_mid_rule (bid ask last : pyval) :
  (forall b a, bid = Some (Fin b) -> ask = Some (Fin a) -> 0 < b -> 0 < a ->
     _safe_mid bid ask last = Fin ((b + a) / 2)) /\
  (~ (positive_finite bid /\ positive_finite ask) ->
     forall l, last = Some (Fin l) -> 0 < l -> _safe_mid bid ask last = Fin l) /\
  (~ (positive_finite bid /\ positive_finite ask) -> ~ positive_finite last ->
     _safe_mid bid ask last = NaN /\ _safe_mid bid ask last <> Fin 0).
Proof.
  assert (Hfb : ~ (positive_finite bid /\ positive_finite ask) ->
                usable bid && usable ask = false).
  { intros Hn. apply not_true_is_false. intros [Hb Ha]%andb_prop.
    apply Hn; split; by apply usable_positive_finite. }
  split; [|split].
  - intros b a. apply safe_mid_both.
  - intros Hn l -> Hl. rewrite safe_mid_fallback by auto.
    simpl. apply Rltb_true in Hl. by rewrite Hl.
  - intros Hn Hl. rewrite safe_mid_fallback by auto.
    assert (usable last = false) as Hu.
    { apply not_true_is_false. by intros ?%usable_positive_finite. }
    rewrite Hu. by destruct last.
Qed.

Lemma safe_mid_rule_witness :
  _safe_mid (Some (Fin 4)) (Some (Fin 6)) (Some (Fin 9)) = Fin ((4 + 6) / 2)
  /\ _safe_mid (Some (Fin 4)) None (Some (Fin 9)) = Fin 9
  /\ (_safe_mid (Some (Fin 0)) (Some NaN) None = NaN
      /\ _safe_mid (Some (Fin 0)) (Some NaN) None <> Fin 0).
Proof.
  split; [|split].
  - apply (proj1 (safe_mid_rule (Some (Fin 4)) (Some (Fin 6)) (Some (Fin 9))) 4 6);
      (reflexivity || lra).
  - apply (proj1 (proj2 (safe_mid_rule (Some (Fin 4)) None (Some (Fin 9))))).
    + intros [_ (x & Hx & _)]. discriminate Hx.
    + reflexivity.
    + lra.
  - apply (proj2 (proj2 (safe_mid_rule (Some (Fin 0)) (Some NaN) None))).
    + intros [_ (x & Hx & _)]. discriminate Hx.
    + intros (x & Hx & _). discriminate Hx.
Defined.

(** ** The theoretical right-hand side and the mid gap *)

Lemma theoretical_rhs_fin (s k t rr d : R) :
  theoretical_rhs (Fin s) (Fin k) (Fin t) (Fin rr) (Fin d)
    = Fin (s - k * exp (- rr * t) - d).
Proof. unfold theoretical_rhs, fsub. simpl. f_equal; lra. Qed.



(** ** The executable gap *)

Lemma fgt_asym a b : fgt a b = true -> fgt b a = false.
Proof.
  destruct a, b; simpl; try done.
  intros H%Rltb_true. apply Rltb_false. lra.
Qed.


Lemma exec_gap_A pi hint :
  selects_A pi hint ->
  parity_gap_executable pi hint
    = exec_A pi (half_used pi) (py_or (C_bid pi) (Fin 0)) (py_or (P_ask pi) (Fin 0)).
Proof.
  unfold parity_gap_executable, exec_A, disc_strike, half_used.
  intros [-> | [-> Hg]]; cbn zeta.
  - rewrite bool_decide_eq_true_2 by done. by rewrite orb_true_r.
  - by rewrite Hg.
Qed.

Lemma exec_gap_B pi hint :
  selects_B pi hint ->
  parity_gap_executable pi hint
    = exec_B pi (half_used pi) (py_or (C_ask pi) (Fin 0)) (py_or (P_bid pi) (Fin 0)).
Proof.
  unfold parity_gap_executable, exec_B, disc_strike, half_used.
  intros [-> | [-> Hg]]; cbn zeta.
  - rewrite (bool_decide_eq_false_2 (Some "B"%string = Some "A"%string)) by done.
    rewrite bool_decide_eq_true_2 by done. done.
  - rewrite Hg. unfold flt in Hg. apply fgt_asym in Hg. by rewrite Hg.
Qed.

Lemma exec_gap_none pi :
  fgt (parity_gap_mid pi) (Fin 0) = false ->
  flt (parity_gap_mid pi) (Fin 0) = false ->
  parity_gap_executable pi None = Fin 0.
Proof.
  intros HA HB. unfold parity_gap_executable. cbn zeta. by rewrite HA, HB.
Qed.

Lemma half_used_nonzero pi c :
  stock_spread_cents pi = Some c -> c <> Fin 0 -> half_used pi = half_spec c.
Proof.
  unfold half_used, half_spec. intros -> Hc. f_equal.
  destruct c as [x| | |]; try done.
  apply py_or_nonzero. by intros ->.
Qed.

Lemma half_used_default pi :
  stock_spread_cents pi = Some (Fin 0) \/ stock_spread_cents pi = None ->
  half_used pi = half_spec (Fin 1).
Proof.
  unfold half_used, half_spec. intros [-> | ->]; by rewrite ?py_or_zero.
Qed.

(** The two directions with the default of the spread spelled out: the
    half-spread is [stock_spread_cents/200] for a nonzero
    [stock_spread_cents] and [1.0/200] when that is zero or [None]; with
    float legs, direction A gives
    [(C_bid - P_ask) - (S_ask - K*exp(-r*tau) - pv_div)] and direction B
    gives [(S_bid - K*exp(-r*tau) - pv_div) - (C_ask - P_bid)]. *)
Theorem exec_gap_directions (pi : ParityInputs) (hint : option string)
    (cb ca pb pa : pyfloat) :
  C_bid pi = Some cb -> C_ask pi = Some ca ->
  P_bid pi = Some pb -> P_ask pi = Some pa ->
  exists half,
    (forall c, stock_spread_cents pi = Some c -> c <> Fin 0 -> half = half_spec c)
    /\ (stock_spread_cents pi = Some (Fin 0) \/ stock_spread_cents pi = None ->
        half = half_spec (Fin 1))
    /\ (selects_A pi hint -> parity_gap_executable pi hint = exec_A pi half cb pa)
    /\ (selects_B pi hint -> parity_gap_executable pi hint = exec_B pi half ca pb).
Proof.
  intros Hcb Hca Hpb Hpa. exists (half_used pi). repeat split.
  - apply half_used_nonzero.
  - apply half_used_default.
  - intros HA. rewrite exec_gap_A by done.
    by rewrite Hcb, Hpa, !py_or_0_float.
  - intros HB. rewrite exec_gap_B by done.
    by rewrite Hca, Hpb, !py_or_0_float.
Qed.

Ltac fin_eq := apply (f_equal Fin); lra.

Ltac fl_unfold :=
  unfold exec_A, exec_B, disc_strike, half_used, half_spec, parity_gap_mid,
    theoretical_rhs, fsub;
  cbn [S K tau r C_mid P_mid C_bid C_ask P_bid P_ask pv_div stock_spread_cents
       scenario scenario_zero_spread scenario_no_call_bid];
  rewrite ?py_or_zero, ?py_or_0_float, ?py_or_NaN, ?py_or_None;
  rewrite ?py_or_nonzero by lra;
  cbn [fadd fneg fmul fexp fdivc].

Lemma exec_gap_directions_witness :
  parity_gap_executable scenario (Some "A"%string)
    = exec_A scenario (half_spec (Fin 1)) (Fin 4.9) (Fin 3.1)
  /\ parity_gap_executable scenario (Some "B"%string)
    = exec_B scenario (half_spec (Fin 1)) (Fin 5.1) (Fin 2.9).
Proof.
  split.
  - destruct (exec_gap_directions scenario (Some "A"%string)
                (Fin 4.9) (Fin 5.1) (Fin 2.9) (Fin 3.1)
                eq_refl eq_refl eq_refl eq_refl) as (half & Hh & _ & HA & _).
    rewrite HA by (left; reflexivity).
    rewrite (Hh (Fin 1) eq_refl); [reflexivity|].
    intros [=]; lra.
  - destruct (exec_gap_directions scenario (Some "B"%string)
                (Fin 4.9) (Fin 5.1) (Fin 2.9) (Fin 3.1)
                eq_refl eq_refl eq_refl eq_refl) as (half & Hh & _ & _ & HB).
    rewrite HB by (left; reflexivity).
    rewrite (Hh (Fin 1) eq_refl); [reflexivity|].
    intros [=]; lra.
Defined.

(** With a zero [stock_spread_cents] the code takes the half-spread of one
    cent, not [0/200]: the formula with [half = stock_spread_cents/200]
    fails there. *)
Lemma exec_gap_half_spec_counterexample :
  ~ (forall (pi : ParityInputs) (hint : option string) (c cb pa : pyfloat),
       stock_spread_cents pi = Some c -> C_bid pi = Some cb -> P_ask pi = Some pa ->
       selects_A pi hint ->
       parity_gap_executable pi hint = exec_A pi (half_spec c) cb pa).
Proof.
  intros H.
  specialize (H scenario_zero_spread (Some "A"%string) (Fin 0) (Fin 4.9) (Fin 3.1)
                eq_refl eq_refl eq_refl (or_introl eq_refl)).
  rewrite exec_gap_A in H by (left; reflexivity).
  revert H. fl_unfold. intros [=]. lra.
Qed.

(** The scenario of the specification has a positive mid gap. *)
Lemma exp_scenario_bound : 0.98 < exp (- (0.05) * 0.25).
Proof. pose proof (exp_ineq1_le (- (0.05) * 0.25)). lra. Qed.

Lemma scenario_gap_mid :
  parity_gap_mid scenario = Fin (5 - 3 - (100 - 100 * exp (- (0.05) * 0.25) - 0)).
Proof. fl_unfold. fin_eq. Qed.

Lemma scenario_selects_A : selects_A scenario None.
Proof.
  right. split; [done|]. rewrite scenario_gap_mid. simpl.
  apply Rltb_true. pose proof exp_scenario_bound. lra.
Qed.

(** The executable gap of the scenario, direction A inferred:
    [1.8 - (100.005 - 100*exp(-0.0125))]. *)
Lemma scenario_gap_exec :
  parity_gap_executable scenario None
    = Fin (4.9 - 3.1 - (100 + 1 / 200 - 100 * exp (- (0.05) * 0.25) - 0)).
Proof.
  rewrite exec_gap_A by apply scenario_selects_A.
  fl_unfold. fin_eq.
Qed.





(** C10: a direction hint that is a string other than ["A"] and ["B"]
    makes the executable gap 0.0 whatever the inputs are; the mid gap and
    both leg formulas are skipped.  The hint names of the specification
    are such strings. *)
Theorem exec_gap_other_hint (pi : ParityInputs) (h : string) :
  h <> "A"%string -> h <> "B"%string ->
  parity_gap_executable pi (Some h) = Fin 0.
Proof.
  intros HA HB. unfold parity_gap_executable. cbn zeta.
  rewrite !bool_decide_eq_false_2; [done| |]; congruence.
Qed.

Lemma exec_gap_other_hint_witness :
  parity_gap_executable scenario (Some "buy-call-sell-put-sell-stock"%string) = Fin 0
  /\ parity_gap_executable scenario (Some "sell-call-buy-put-buy-stock"%string) = Fin 0.
Proof.
  split; apply exec_gap_other_hint; discriminate.
Defined.

(** A direction that uses a NaN leg gives NaN: [nan or 0.0] is [nan]. *)
Lemma exec_gap_A_NaN_leg pi hint :
  selects_A pi hint ->
  C_bid pi = Some NaN \/ P_ask pi = Some NaN ->
  parity_gap_executable pi hint = NaN.
Proof.
  intros HA Hleg. rewrite exec_gap_A by done. unfold exec_A.
  destruct Hleg as [-> | ->]; rewrite py_or_NaN; [done|].
  by rewrite fsub_NaN_r.
Qed.

Lemma exec_gap_B_NaN_leg pi hint :
  selects_B pi hint ->
  C_ask pi = Some NaN \/ P_bid pi = Some NaN ->
  parity_gap_executable pi hint = NaN.
Proof.
  intros HB Hleg. rewrite exec_gap_B by done. unfold exec_B.
  destruct Hleg as [-> | ->]; rewrite py_or_NaN;
    by rewrite ?fsub_NaN_l, ?fsub_NaN_r.
Qed.

(** A leg that is [None] or zero does count as 0.0. *)
Lemma exec_gap_A_None_leg pi hint pa :
  selects_A pi hint -> C_bid pi = None -> P_ask pi = Some pa ->
  parity_gap_executable pi hint = exec_A pi (half_used pi) (Fin 0) pa.
Proof.
  intros HA Hc Hp. rewrite exec_gap_A by done.
  by rewrite Hc, Hp, py_or_None, py_or_0_float.
Qed.

(** ** Rows *)

Lemma build_inputs_ok (row common : gmap string pyval) (k s t rr : pyfloat) :
  row !! "strike"%string = Some (Some k) ->
  common !! "S"%string = Some (Some s) ->
  common !! "tau"%string = Some (Some t) ->
  common !! "r"%string = Some (Some rr) ->
  build_inputs row common =
    Ok {| S := s; K := k; tau := t; r := rr;
          C_mid := (let m := _safe_mid (get row "call_bid") (get row "call_ask")
                               (get row "call_lastPrice") in
                    if isfinite m then m else NaN);
          P_mid := (let m := _safe_mid (get row "put_bid") (get row "put_ask")
                               (get row "put_lastPrice") in
                    if isfinite m then m else NaN);
          C_bid := Some (py_or (get row "call_bid") NaN);
          C_ask := Some (py_or (get row "call_ask") NaN);
          P_bid := Some (py_or (get row "put_bid") NaN);
          P_ask := Some (py_or (get row "put_ask") NaN);
          pv_div := py_or (get common "pv_div") (Fin 0);
          stock_spread_cents :=
            Some (py_or (get common "stock_spread_cents") (Fin 1)) |}.
Proof.
  intros Hk Hs Ht Hr. unfold build_inputs, getitem.
  rewrite Hs. cbn [rbind]. rewrite Hk. cbn [rbind to_float].
  rewrite Ht. cbn [rbind]. rewrite Hr. reflexivity.
Qed.


Lemma py_or_missing row key : missing row key -> py_or (get row key) NaN = NaN.
Proof. by intros [-> | ->]. Qed.






(** ** Missing legs on the way from a row to the executable gap *)

(** Whatever the row, a bid or ask that is absent, [None], NaN or zero
    reaches [ParityInputs] as NaN. *)
Lemma py_or_NaN_cases (v : pyval) :
  v = None \/ v = Some NaN \/ v = Some (Fin 0) -> py_or v NaN = NaN.
Proof. intros [-> | [-> | ->]]; try done. apply py_or_zero. Qed.

Lemma build_inputs_legs row common pi :
  build_inputs row common = Ok pi ->
  C_bid pi = Some (py_or (get row "call_bid") NaN)
  /\ C_ask pi = Some (py_or (get row "call_ask") NaN)
  /\ P_bid pi = Some (py_or (get row "put_bid") NaN)
  /\ P_ask pi = Some (py_or (get row "put_ask") NaN).
Proof.
  unfold build_inputs, getitem.
  destruct (common !! "S"%string) as [s|]; [|done].
  destruct (row !! "strike"%string) as [[k|]|]; try done.
  destruct (common !! "tau"%string) as [t|]; [|done].
  destruct (common !! "r"%string) as [[rr|]|]; try done.
  destruct t as [t|]; [|done]. destruct s as [s|]; [|done].
  cbn [rbind to_float]. by intros [= <-].
Qed.

(** For every row whose call bid is missing, a selected direction A gives
    NaN, not the value with 0.0 in place of the bid. *)
Lemma missing_call_bid_exec_gap row common pi :
  build_inputs row common = Ok pi ->
  missing row "call_bid" ->
  selects_A pi None ->
  parity_gap_executable pi None = NaN.
Proof.
  intros Hpi Hm HA. apply exec_gap_A_NaN_leg; [done|]. left.
  destruct (build_inputs_legs _ _ _ Hpi) as (-> & _).
  by rewrite py_or_missing.
Qed.

Lemma row_no_call_bid_inputs :
  build_inputs row_no_call_bid common_ctx
    = Ok {| S := Fin 100; K := Fin 100; tau := Fin 0.25; r := Fin 0.05;
            C_mid := Fin 5; P_mid := Fin ((2.9 + 3.1) / 2);
            C_bid := Some NaN; C_ask := Some (Fin 5.1);
            P_bid := Some (Fin 2.9); P_ask := Some (Fin 3.1);
            pv_div := Fin 0; stock_spread_cents := Some (Fin 1) |}.
Proof.
  rewrite (build_inputs_ok _ _ (Fin 100) (Fin 100) (Fin 0.25) (Fin 0.05))
    by reflexivity.
  change (get row_no_call_bid "call_bid") with (@None pyfloat).
  change (get row_no_call_bid "call_ask") with (Some (Fin 5.1)).
  change (get row_no_call_bid "call_lastPrice") with (Some (Fin 5)).
  change (get row_no_call_bid "put_bid") with (Some (Fin 2.9)).
  change (get row_no_call_bid "put_ask") with (Some (Fin 3.1)).
  change (get row_no_call_bid "put_lastPrice") with (@None pyfloat).
  change (get common_ctx "pv_div") with (Some (Fin 0)).
  change (get common_ctx "stock_spread_cents") with (Some (Fin 1)).
  rewrite (safe_mid_both (Some (Fin 2.9)) (Some (Fin 3.1)) None 2.9 3.1)
    by (reflexivity || lra).
  rewrite safe_mid_fallback by reflexivity.
  assert (usable (Some (Fin 5)) = true) as -> by (apply Rltb_true; lra).
  rewrite py_or_zero, py_or_None. rewrite !py_or_nonzero by lra.
  reflexivity.
Qed.

Lemma scenario_no_call_bid_selects_A : selects_A scenario_no_call_bid None.
Proof.
  right. split; [done|].
  assert (parity_gap_mid scenario_no_call_bid
            = Fin (5 - 3 - (100 - 100 * exp (- (0.05) * 0.25) - 0))) as ->
    by (fl_unfold; fin_eq).
  simpl. apply Rltb_true. pose proof exp_scenario_bound. lra.
Qed.

(** C1 at a row without a call bid (call last 5, ask 5.1; put 2.9/3.1;
    strike and spot 100, a quarter of a year, rate 5%): the mid gap is
    positive, direction A is taken, and the executable gap is NaN, whereas
    0.0 in place of the missing bid gives a finite number. *)
Theorem missing_call_bid_row :
  compute_row row_no_call_bid common_ctx
    = Ok {| gap_mid := Fin (5 - 3 - (100 - 100 * exp (- (0.05) * 0.25) - 0));
            gap_exec := NaN |}
  /\ exec_A scenario (half_spec (Fin 1)) (Fin 0) (Fin 3.1)
    = Fin (0 - 3.1 - (100 + 1 / 200 - 100 * exp (- (0.05) * 0.25) - 0)).
Proof.
  split.
  - unfold compute_row. rewrite row_no_call_bid_inputs. cbn [rbind].
    match goal with |- Ok {| gap_mid := parity_gap_mid ?p; gap_exec := _ |} = _ =>
      assert (selects_A p None) as HA
    end.
    { right. split; [done|].
      unfold parity_gap_mid, theoretical_rhs, fsub.
      cbn [S K tau r C_mid P_mid pv_div fadd fneg fmul fexp fgt].
      apply Rltb_true. pose proof exp_scenario_bound. lra. }
    rewrite (exec_gap_A_NaN_leg _ _ HA) by (left; reflexivity).
    f_equal. f_equal. unfold parity_gap_mid, theoretical_rhs, fsub.
    cbn [S K tau r C_mid P_mid pv_div fadd fneg fmul fexp]. fin_eq.
  - fl_unfold. fin_eq.
Qed.

(** C2 at finite [S], [K], [tau], [r], [pv_div], [stock_spread_cents] and a
    missing call bid in the representation [compute_row] gives it: the
    executable gap is NaN, neither a finite number nor 0.0, both with
    direction A inferred and with the hint ["A"]. *)
Theorem exec_gap_not_finite :
  parity_gap_executable scenario_no_call_bid None = NaN
  /\ parity_gap_executable scenario_no_call_bid (Some "A"%string) = NaN
  /\ isfinite (parity_gap_executable scenario_no_call_bid None) = false.
Proof.
  assert (parity_gap_executable scenario_no_call_bid None = NaN) as H.
  { apply exec_gap_A_NaN_leg; [apply scenario_no_call_bid_selects_A|].
    left. reflexivity. }
  split; [|split].
  - exact H.
  - apply exec_gap_A_NaN_leg; left; reflexivity.
  - by rewrite H.
Qed.

Lemma py_or_leg_finite v d : leg_ok v -> exists x, py_or v (Fin d) = Fin x.
Proof.
  intros [-> | [x ->]]; [by exists d|].
  unfold py_or, truthy. destruct (negb (Reqb x 0)); eauto.
Qed.

(** With every leg [None] or finite and the other fields finite, the
    executable gap is finite. *)
Lemma exec_gap_finite pi hint :
  isfinite (S pi) = true -> isfinite (K pi) = true -> isfinite (tau pi) = true ->
  isfinite (r pi) = true -> isfinite (pv_div pi) = true ->
  isfinite (C_mid pi) = true -> isfinite (P_mid pi) = true ->
  leg_ok (stock_spread_cents pi) ->
  leg_ok (C_bid pi) -> leg_ok (C_ask pi) -> leg_ok (P_bid pi) -> leg_ok (P_ask pi) ->
  isfinite (parity_gap_executable pi hint) = true.
Proof.
  destruct pi as [s k t rr cm pm cb ca pb pa d ssc]. cbn [S K tau r C_mid P_mid
    C_bid C_ask P_bid P_ask pv_div stock_spread_cents].
  intros Hs Hk Ht Hr Hd Hcm Hpm Hssc Hcb Hca Hpb Hpa.
  destruct s, k, t, rr, d, cm, pm; try done.
  destruct (py_or_leg_finite _ 1 Hssc) as [h Hh].
  destruct (py_or_leg_finite _ 0 Hcb) as [xcb Hxcb].
  destruct (py_or_leg_finite _ 0 Hca) as [xca Hxca].
  destruct (py_or_leg_finite _ 0 Hpb) as [xpb Hxpb].
  destruct (py_or_leg_finite _ 0 Hpa) as [xpa Hxpa].
  unfold parity_gap_executable.
  cbn [S K tau r C_mid P_mid C_bid C_ask P_bid P_ask pv_div stock_spread_cents].
  rewrite Hh, Hxcb, Hxca, Hxpb, Hxpa. cbn zeta.
  repeat match goal with |- context [if ?b then _ else _] => destruct b end; done.
Qed.

(** ** Zero quotes *)

Lemma get_insert_eq (m : gmap string pyval) k v : get (<[k:=v]> m) k = v.
Proof. unfold get. by rewrite lookup_insert_eq. Qed.

Lemma get_insert_ne (m : gmap string pyval) k k' v :
  k <> k' -> get (<[k:=v]> m) k' = get m k'.
Proof. intros. unfold get. by rewrite lookup_insert_ne. Qed.

Lemma get_delete_eq (m : gmap string pyval) k : get (delete k m) k = None.
Proof. unfold get. by rewrite lookup_delete_eq. Qed.

Lemma get_delete_ne (m : gmap string pyval) k k' :
  k <> k' -> get (delete k m) k' = get m k'.
Proof. intros. unfold get. by rewrite lookup_delete_ne. Qed.

(** [_safe_mid] reads an argument only when it is usable. *)
Lemma safe_mid_bid_irrel b b' a l :
  usable b = false -> usable b' = false -> _safe_mid b a l = _safe_mid b' a l.
Proof.
  intros Hb Hb'. rewrite !safe_mid_fallback; [done| |]; by rewrite ?Hb, ?Hb'.
Qed.

Lemma safe_mid_ask_irrel b a a' l :
  usable a = false -> usable a' = false -> _safe_mid b a l = _safe_mid b a' l.
Proof.
  intros Ha Ha'.
  rewrite !safe_mid_fallback; [done| |]; rewrite ?Ha, ?Ha'; apply andb_false_r.
Qed.

Lemma safe_mid_last_irrel b a l l' :
  usable l = false -> usable l' = false -> _safe_mid b a l = _safe_mid b a l'.
Proof.
  intros Hl Hl'. unfold _safe_mid.
  destruct (omap _ _) as [|? [|? [|]]]; try done;
    rewrite Hl, Hl'; by destruct l, l'.
Qed.

Lemma void_usable v : void v -> usable v = false.
Proof. intros [-> | [-> | ->]]; try done. apply usable_zero. Qed.

Lemma build_inputs_void key v row common :
  key ∈ quote_keys -> void v ->
  build_inputs (<[key:=v]> row) common = build_inputs (delete key row) common.
Proof.
  intros Hkey Hv. pose proof (void_usable _ Hv) as Hu.
  pose proof (py_or_NaN_cases _ Hv) as Ho.
  unfold quote_keys in Hkey.
  repeat (apply elem_of_cons in Hkey as [-> | Hkey]);
    [..|by apply elem_of_nil in Hkey];
    unfold build_inputs, getitem;
    rewrite ?get_insert_eq, ?get_delete_eq;
    rewrite !get_insert_ne, !get_delete_ne by done;
    rewrite lookup_insert_ne, lookup_delete_ne by done;
    rewrite ?Ho, ?py_or_None.
  - by rewrite (safe_mid_bid_irrel v None).
  - by rewrite (safe_mid_ask_irrel _ v None).
  - by rewrite (safe_mid_last_irrel _ _ v None).
  - by rewrite (safe_mid_bid_irrel v None).
  - by rewrite (safe_mid_ask_irrel _ v None).
  - by rewrite (safe_mid_last_irrel _ _ v None).
Qed.

(** C9: a quote field of a row (call or put bid, ask, last) whose value is
    exactly 0.0 gives the same [ParityInputs], hence the same two gaps, as
    the row without the field and as the row with NaN there; the bid and
    ask legs of the inputs are NaN in that case. *)
Theorem zero_quote_as_missing (key : string) (row common : gmap string pyval) :
  key ∈ quote_keys ->
  build_inputs (<[key:=Some (Fin 0)]> row) common
    = build_inputs (delete key row) common
  /\ build_inputs (<[key:=Some (Fin 0)]> row) common
    = build_inputs (<[key:=Some NaN]> row) common
  /\ compute_row (<[key:=Some (Fin 0)]> row) common
    = compute_row (delete key row) common
  /\ (forall pi, build_inputs (<[key:=Some (Fin 0)]> row) common = Ok pi ->
        (key = "call_bid"%string -> C_bid pi = Some NaN)
        /\ (key = "call_ask"%string -> C_ask pi = Some NaN)
        /\ (key = "put_bid"%string -> P_bid pi = Some NaN)
        /\ (key = "put_ask"%string -> P_ask pi = Some NaN)).
Proof.
  intros Hkey.
  assert (build_inputs (<[key:=Some (Fin 0)]> row) common
            = build_inputs (delete key row) common) as H0.
  { apply build_inputs_void; [done|]. right; by right. }
  split; [done|]. split; [|split].
  - rewrite H0. symmetry. apply build_inputs_void; [done|]. right; by left.
  - unfold compute_row. by rewrite H0.
  - intros pi Hpi. destruct (build_inputs_legs _ _ _ Hpi) as (Hcb & Hca & Hpb & Hpa).
    repeat split; intros ->.
    + by rewrite Hcb, get_insert_eq, py_or_zero.
    + by rewrite Hca, get_insert_eq, py_or_zero.
    + by rewrite Hpb, get_insert_eq, py_or_zero.
    + by rewrite Hpa, get_insert_eq, py_or_zero.
Qed.

Lemma zero_quote_as_missing_witness :
  build_inputs (<["call_bid"%string:=Some (Fin 0)]> row_no_call_bid) common_ctx
    = build_inputs (delete "call_bid"%string row_no_call_bid) common_ctx
  /\ compute_row (<["put_lastPrice"%string:=Some (Fin 0)]> row_strike_only) common_ctx
    = compute_row (delete "put_lastPrice"%string row_strike_only) common_ctx.
Proof.
  split.
  - apply (proj1 (zero_quote_as_missing "call_bid" row_no_call_bid common_ctx
                    ltac:(unfold quote_keys; set_solver))).
  - apply (proj1 (proj2 (proj2 (zero_quote_as_missing "put_lastPrice"
                    row_strike_only common_ctx
                    ltac:(unfold quote_keys; set_solver))))).
Defined.

(** ** Present value of dividends *)

Lemma in_window_decide start exp p :
  in_window start exp p = bool_decide (start < p.1 ∧ p.1 ≤ exp)%Z.
Proof.
  unfold in_window.
  destruct (Z.ltb_spec start p.1), (Z.leb_spec p.1 exp); simpl;
    symmetry; (apply bool_decide_eq_true_2 || apply bool_decide_eq_false_2); lia.
Qed.

(** The clamp [max(t, 0.0)] on a finite [t]. *)
Lemma fmax0_Rmax t : fmax0 (Fin t) = Fin (Rmax t 0).
Proof.
  unfold fmax0. simpl. destruct (Rltb t 0) eqn:E.
  - apply Rltb_true in E. rewrite Rmax_right by lra. done.
  - apply Rltb_false in E. rewrite Rmax_left by lra. done.
Qed.

(** Inside the window the clamp does nothing: the day count is not
    negative. *)
Lemma days_nonneg start d : (start < d)%Z -> (0 <= days (d - start))%Z.
Proof. intros. unfold days, ns_per_day. apply Z.div_pos; lia. Qed.

(** What a whole day count is: [n] days have passed and the next day has
    not. *)
Lemma whole_days_spec start d n :
  (start <= d)%Z ->
  whole_days start d = n
  <-> (n * day_ns <= d - start < (n + 1) * day_ns)%Z.
Proof.
  intros Hle. unfold whole_days. rewrite Z.quot_div_nonneg by (unfold day_ns; lia).
  unfold day_ns. split.
  - intros <-.
    pose proof (Z.mul_div_le (d - start) (24 * 60 * 60 * 1000000000)).
    pose proof (Z.mul_succ_div_gt (d - start) (24 * 60 * 60 * 1000000000)).
    lia.
  - intros [H1 H2]. symmetry. apply Z.div_unique with (d - start - n * (24 * 60 * 60 * 1000000000))%Z; lia.
Qed.

(** The code counts days with the floor of [.days]; after the clamp at 0
    this is the whole days elapsed, also for an ex-date before [start]. *)
Lemma years_since_days start d :
  years_since start d = Rmax (IZR (days (d - start)) / 365.25) 0.
Proof.
  unfold years_since, whole_days, days.
  change day_ns with ns_per_day.
  destruct (Z.le_gt_cases 0 (d - start)) as [Hge | Hlt].
  - by rewrite Z.quot_div_nonneg by (unfold ns_per_day; lia).
  - assert (Z.quot (d - start) ns_per_day <= 0)%Z as Hq.
    { rewrite <- (Z.opp_involutive (d - start)), Z.quot_opp_l by (unfold ns_per_day; lia).
      assert (0 <= Z.quot (- (d - start)) ns_per_day)%Z
        by (apply Z.quot_pos; unfold ns_per_day; lia).
      lia. }
    assert ((d - start) / ns_per_day < 0)%Z as Hd
      by (apply Z.div_lt_upper_bound; unfold ns_per_day; lia).
    apply IZR_le in Hq. apply IZR_lt in Hd.
    rewrite !Rmax_right by lra. done.
Qed.

Lemma discounted_in_window start exp r_annual p :
  in_window start exp p = true ->
  discounted start r_annual p
    = fmul p.2 (fexp (fmul (fneg r_annual)
                        (Fin (IZR (days (p.1 - start)) / 365.25)))).
Proof.
  unfold in_window. intros [Hlt _]%andb_prop. apply Z.ltb_lt in Hlt.
  unfold discounted. rewrite years_since_days. rewrite Rmax_left; [done|].
  apply days_nonneg, IZR_le in Hlt. lra.
Qed.

Lemma pv_step_discounted start r_annual pv p :
  pv_step start r_annual pv p = fadd pv (discounted start r_annual p).
Proof.
  unfold pv_step, discounted. cbn zeta.
  by rewrite fmax0_Rmax, years_since_days.
Qed.

Lemma pv_loop_sum start r_annual (l : list (Z * pyfloat)) (pv0 : pyfloat) :
  fold_left (pv_step start r_annual) l pv0
    = fadd pv0 (fsum (map (discounted start r_annual) l)).
Proof.
  revert pv0. induction l as [|p l IH]; intros pv0; simpl.
  - by rewrite fadd_0_r.
  - by rewrite IH, pv_step_discounted, fadd_assoc.
Qed.

(** C8: [pv_of_dividends] is the sum, over the dividends with ex-date
    strictly after [start] and at or before expiry, of
    [amount * exp(-r_annual * t)], [t] the whole days since [start] over
    365.25 and not below 0; it is 0.0 for a series that is [None], empty
    or without such a dividend. *)
Theorem pv_of_dividends_sum (to_datetime : string -> option Z)
    (ds : list (Z * pyfloat)) (start : Z) (expiry : string) (r_annual : pyfloat) :
  pv_of_dividends to_datetime None start expiry r_annual = Ok (Fin 0)
  /\ pv_of_dividends to_datetime (Some []) start expiry r_annual = Ok (Fin 0)
  /\ (forall exp : Z, to_datetime expiry = Some exp ->
        pv_of_dividends to_datetime (Some ds) start expiry r_annual
          = Ok (pv_spec ds start exp r_annual)
        /\ ((forall p, p ∈ ds -> ~ (start < p.1 ∧ p.1 ≤ exp)%Z) ->
            pv_of_dividends to_datetime (Some ds) start expiry r_annual
              = Ok (Fin 0))).
Proof.
  split; [done|]. split; [done|]. intros exp Hexp.
  assert (pv_of_dividends to_datetime (Some ds) start expiry r_annual
            = Ok (pv_spec ds start exp r_annual)) as Hsum.
  { unfold pv_of_dividends, pv_spec. destruct ds as [|p ds]; [done|].
    rewrite Hexp.
    rewrite <- (List.filter_ext _ _ (in_window_decide start exp)).
    destruct (List.filter _ _) as [|q l] eqn:E; [done|].
    by rewrite pv_loop_sum, fadd_0_l. }
  split; [done|]. intros Hnone. rewrite Hsum. f_equal. unfold pv_spec.
  assert (List.filter (λ p : Z * pyfloat, bool_decide (start < p.1 ∧ p.1 ≤ exp)%Z) ds
            = []) as ->; [|done].
  clear Hsum. induction ds as [|p ds IH]; [done|]. simpl.
  rewrite bool_decide_eq_false_2 by (apply Hnone; left).
  apply IH. intros q Hq. apply Hnone. by right.
Qed.

Lemma sample_days :
  days (10 * ns_per_day - 0) = 10%Z /\ days (40 * ns_per_day + 1 - 0) = 40%Z.
Proof. split; reflexivity. Qed.

Lemma sample_window :
  List.filter (fun p : Z * pyfloat =>
                 bool_decide (0 < p.1 ∧ p.1 ≤ 100 * ns_per_day)%Z) sample_divs
    = [((10 * ns_per_day)%Z, Fin 0.5); ((40 * ns_per_day + 1)%Z, Fin 0.6)].
Proof.
  unfold sample_divs. cbn [List.filter fst].
  rewrite (bool_decide_eq_false_2 (0 < -5 * ns_per_day ∧ _)%Z) by (unfold ns_per_day; lia).
  rewrite (bool_decide_eq_true_2 (0 < 10 * ns_per_day ∧ _)%Z) by (unfold ns_per_day; lia).
  rewrite (bool_decide_eq_true_2 (0 < 40 * ns_per_day + 1 ∧ _)%Z) by (unfold ns_per_day; lia).
  rewrite (bool_decide_eq_false_2 (0 < 400 * ns_per_day ∧ _)%Z) by (unfold ns_per_day; lia).
  reflexivity.
Qed.

(** The sample series at rate 5%: the dividends of day 10 and day 40 count,
    the one before the start and the one after the expiry do not. *)
Lemma sample_pv :
  pv_spec sample_divs 0 (100 * ns_per_day) (Fin 0.05)
    = Fin (0.5 * exp (- (0.05) * (10 / 365.25))
           + 0.6 * exp (- (0.05) * (40 / 365.25))).
Proof.
  unfold pv_spec. rewrite sample_window.
  unfold fsum, discounted. cbn [map foldr fst snd].
  rewrite !years_since_days.
  destruct sample_days as [-> ->].
  rewrite !Rmax_left by lra.
  cbn [fneg fmul fexp fadd]. fin_eq.
Qed.

Lemma intraday_window :
  List.filter (fun p : Z * pyfloat =>
                 bool_decide (0 < p.1 ∧ p.1 ≤ 100 * ns_per_day)%Z) intraday_divs
    = [((10 * day_ns + 9 * 3600000000000)%Z, Fin 0.5);
       ((40 * day_ns + 12 * 3600000000000)%Z, Fin 0.6)].
Proof.
  unfold intraday_divs. cbn [List.filter fst].
  rewrite (bool_decide_eq_false_2 (0 < -5 * day_ns ∧ _)%Z)
    by (unfold day_ns, ns_per_day; lia).
  rewrite (bool_decide_eq_true_2 (0 < 10 * day_ns + _ ∧ _)%Z)
    by (unfold day_ns, ns_per_day; lia).
  rewrite (bool_decide_eq_true_2 (0 < 40 * day_ns + _ ∧ _)%Z)
    by (unfold day_ns, ns_per_day; lia).
  rewrite (bool_decide_eq_false_2 (0 < 400 * day_ns ∧ _)%Z)
    by (unfold day_ns, ns_per_day; lia).
  reflexivity.
Qed.

Lemma intraday_whole_days :
  whole_days 0 (10 * day_ns + 9 * 3600000000000) = 10%Z
  /\ whole_days 0 (40 * day_ns + 12 * 3600000000000) = 40%Z.
Proof. split; reflexivity. Qed.

(** Ex-dates 10 days 9 hours and 40 days 12 hours after [start] are
    discounted over 10 and 40 days: the hours do not count. *)
Lemma intraday_pv :
  pv_spec intraday_divs 0 (100 * ns_per_day) (Fin 0.05)
    = Fin (0.5 * exp (- (0.05) * (10 / 365.25))
           + 0.6 * exp (- (0.05) * (40 / 365.25))).
Proof.
  unfold pv_spec. rewrite intraday_window.
  unfold fsum, discounted, years_since. cbn [map foldr fst snd].
  destruct intraday_whole_days as [-> ->].
  rewrite !Rmax_left by lra.
  cbn [fneg fmul fexp fadd]. fin_eq.
Qed.

Lemma pv_of_dividends_sum_witness :
  pv_of_dividends sample_to_datetime (Some intraday_divs) 0 "2030-01-18" (Fin 0.05)
    = Ok (Fin (0.5 * exp (- (0.05) * (10 / 365.25))
               + 0.6 * exp (- (0.05) * (40 / 365.25))))
  /\ pv_of_dividends sample_to_datetime
       (Some [((-5 * ns_per_day)%Z, Fin 0.5)]) 0 "2030-01-18" (Fin 0.05)
    = Ok (Fin 0).
Proof.
  split.
  - rewrite (proj1 (proj2 (proj2 (pv_of_dividends_sum sample_to_datetime
                                    intraday_divs 0 "2030-01-18" (Fin 0.05)))
                      (100 * ns_per_day)%Z eq_refl)).
    by rewrite intraday_pv.
  - apply (proj2 (proj2 (pv_of_dividends_sum sample_to_datetime
                           [((-5 * ns_per_day)%Z, Fin 0.5)]
                           0 "2030-01-18" (Fin 0.05))) (100 * ns_per_day)%Z).
    + reflexivity.
    + intros p Hp. apply list_elem_of_singleton in Hp. subst p.
      unfold ns_per_day. simpl. lia.
Defined.

(** ** Closed forms on finite inputs *)

Section Finite.

Variables s k t rr d cm pm : R.
Variables cb ca pb pa : R.
Variable cents : R.

Let pi : ParityInputs :=
  {| S := Fin s; K := Fin k; tau := Fin t; r := Fin rr;
     C_mid := Fin cm; P_mid := Fin pm;
     C_bid := Some (Fin cb); C_ask := Some (Fin ca);
     P_bid := Some (Fin pb); P_ask := Some (Fin pa);
     pv_div := Fin d; stock_spread_cents := Some (Fin cents) |}.

Lemma exec_A_fin (h : R) :
  exec_A pi (Fin h) (Fin cb) (Fin pa)
    = Fin ((cb - pa) - ((s + h) - k * exp (- rr * t) - d)).
Proof. unfold exec_A, disc_strike, fsub. simpl. fin_eq. Qed.

Lemma exec_B_fin (h : R) :
  exec_B pi (Fin h) (Fin ca) (Fin pb)
    = Fin (((s - h) - k * exp (- rr * t) - d) - (ca - pb)).
Proof. unfold exec_B, disc_strike, fsub. simpl. fin_eq. Qed.

Lemma exec_gap_fin_A :
  cents <> 0 ->
  parity_gap_executable pi (Some "A"%string)
    = Fin ((cb - pa) - ((s + cents / 200) - k * exp (- rr * t) - d)).
Proof.
  intros Hc. rewrite exec_gap_A by (by left).
  unfold half_used. cbn [stock_spread_cents C_bid P_ask pi].
  rewrite !py_or_0_float, py_or_nonzero by done.
  apply exec_A_fin.
Qed.

Lemma exec_gap_fin_B :
  cents <> 0 ->
  parity_gap_executable pi (Some "B"%string)
    = Fin (((s - cents / 200) - k * exp (- rr * t) - d) - (ca - pb)).
Proof.
  intros Hc. rewrite exec_gap_B by (by left).
  unfold half_used. cbn [stock_spread_cents C_ask P_bid pi].
  rewrite !py_or_0_float, py_or_nonzero by done.
  apply exec_B_fin.
Qed.

End Finite.

(** * Further properties of the code *)

(** ** [_safe_mid] *)

(** Whatever the three quotes are, [_safe_mid] gives NaN or a finite,
    strictly positive price: never zero, a negative number or an
    infinity. *)
Theorem safe_mid_range (bid ask last : pyval) :
  _safe_mid bid ask last = NaN
  \/ exists x, _safe_mid bid ask last = Fin x /\ 0 < x.
Proof.
  destruct (usable bid && usable ask) eqn:E.
  - apply andb_prop in E as [Hb Ha].
    apply usable_positive_finite in Hb as (b & -> & Hb).
    apply usable_positive_finite in Ha as (a & -> & Ha).
    right. exists ((b + a) / 2). split; [by apply safe_mid_both|lra].
  - rewrite safe_mid_fallback by done.
    destruct last as [l|]; [|by left].
    destruct (usable (Some l)) eqn:El; [|by left].
    apply usable_positive_finite in El as (x & [= ->] & Hx).
    right. by exists x.
Qed.

(** The order of bid and ask does not matter. *)
Theorem safe_mid_sym (bid ask last : pyval) :
  _safe_mid bid ask last = _safe_mid ask bid last.
Proof.
  destruct (usable bid && usable ask) eqn:E.
  - apply andb_prop in E as [Hb Ha].
    apply usable_positive_finite in Hb as (b & -> & Hb).
    apply usable_positive_finite in Ha as (a & -> & Ha).
    rewrite (safe_mid_both _ _ _ b a), (safe_mid_both _ _ _ a b) by done.
    fin_eq.
  - rewrite !safe_mid_fallback; [done| |done]. by rewrite andb_comm.
Qed.

(** With a usable bid and ask the mid lies between the two, and [last]
    plays no part. *)
Theorem safe_mid_between (b a : R) (last last' : pyval) :
  0 < b -> 0 < a ->
  exists m, _safe_mid (Some (Fin b)) (Some (Fin a)) last = Fin m
            /\ _safe_mid (Some (Fin b)) (Some (Fin a)) last' = Fin m
            /\ Rmin b a <= m <= Rmax b a.
Proof.
  intros Hb Ha. exists ((b + a) / 2).
  rewrite !(safe_mid_both _ _ _ b a) by done. repeat split.
  - unfold Rmin. destruct (Rle_dec b a); lra.
  - unfold Rmax. destruct (Rle_dec b a); lra.
Qed.

Lemma safe_mid_between_witness :
  exists m, _safe_mid (Some (Fin 4.9)) (Some (Fin 5.1)) None = Fin m
            /\ _safe_mid (Some (Fin 4.9)) (Some (Fin 5.1)) (Some (Fin 7)) = Fin m
            /\ Rmin 4.9 5.1 <= m <= Rmax 4.9 5.1.
Proof. apply (safe_mid_between 4.9 5.1 None (Some (Fin 7))); lra. Defined.

(** ** [theoretical_rhs] and [parity_gap_mid] *)




(** With an infinite positive rate and a positive time to expiry the
    discounted strike vanishes: the result is the finite [S - pv_div]. *)
Theorem theoretical_rhs_infinite_rate (s k t d : R) :
  0 < t ->
  theoretical_rhs (Fin s) (Fin k) (Fin t) PInf (Fin d) = Fin (s - d).
Proof.
  intros Ht. unfold theoretical_rhs, fsub. cbn [fneg fmul].
  unfold inf_times. apply Rltb_true in Ht. rewrite Ht.
  cbn [fexp fmul fneg fadd]. fin_eq.
Qed.

Lemma theoretical_rhs_infinite_rate_witness :
  theoretical_rhs (Fin 100) (Fin 100) (Fin 0.25) PInf (Fin 0) = Fin (100 - 0).
Proof. apply theoretical_rhs_infinite_rate. lra. Defined.

(** The mid gap moves one for one with [C_mid - P_mid], whatever the
    other fields are. *)
Theorem gap_mid_shift (pi : ParityInputs) (c p delta : R) :
  parity_gap_mid (set_mids pi (Fin (c + delta)) (Fin p))
    = fadd (parity_gap_mid (set_mids pi (Fin c) (Fin p))) (Fin delta)
  /\ parity_gap_mid (set_mids pi (Fin c) (Fin (p + delta)))
    = fsub (parity_gap_mid (set_mids pi (Fin c) (Fin p))) (Fin delta).
Proof.
  unfold parity_gap_mid, set_mids. cbn [S K tau r C_mid P_mid pv_div].
  destruct (theoretical_rhs _ _ _ _ _) as [x| | |]; unfold fsub; simpl;
    split; try done; fin_eq.
Qed.

(** Swapping the two mids negates the mid gap exactly when the theoretical
    right-hand side is zero. *)
Theorem gap_mid_swap (pi : ParityInputs) (c p x : R) :
  theoretical_rhs (S pi) (K pi) (tau pi) (r pi) (pv_div pi) = Fin x ->
  (parity_gap_mid (set_mids pi (Fin p) (Fin c))
     = fneg (parity_gap_mid (set_mids pi (Fin c) (Fin p)))
   <-> x = 0).
Proof.
  intros Hx. unfold parity_gap_mid, set_mids.
  cbn [S K tau r C_mid P_mid pv_div]. rewrite Hx. unfold fsub. simpl.
  split.
  - intros [=]. lra.
  - intros ->. fin_eq.
Qed.

Lemma gap_mid_swap_witness :
  parity_gap_mid (set_mids (finite_inputs 100 100 0 0 0 5 3 1 1 1 1 1) (Fin 3) (Fin 5))
    = fneg (parity_gap_mid
              (set_mids (finite_inputs 100 100 0 0 0 5 3 1 1 1 1 1) (Fin 5) (Fin 3)))
  <-> 100 - 100 * exp (- 0 * 0) - 0 = 0.
Proof.
  apply (gap_mid_swap (finite_inputs 100 100 0 0 0 5 3 1 1 1 1 1) 5 3).
  apply theoretical_rhs_fin.
Defined.

(** ** The executable gap against the mid gap *)

Lemma half_used_finite s k t rr d cm pm cb ca pb pa cents :
  0 <= cents ->
  exists h, half_used (finite_inputs s k t rr d cm pm cb ca pb pa cents) = Fin h
            /\ 0 < h.
Proof.
  intros Hc. unfold half_used, finite_inputs. cbn [stock_spread_cents].
  destruct (Req_dec_T cents 0) as [-> | Hne].
  - rewrite py_or_zero. exists (1 / 200). split; [done|lra].
  - rewrite py_or_nonzero by done. exists (cents / 200). split; [done|lra].
Qed.

Lemma gap_mid_finite s k t rr d cm pm cb ca pb pa cents :
  parity_gap_mid (finite_inputs s k t rr d cm pm cb ca pb pa cents)
    = Fin ((cm - pm) - (s - k * exp (- rr * t) - d)).
Proof.
  unfold parity_gap_mid, finite_inputs. cbn [S K tau r C_mid P_mid pv_div].
  rewrite theoretical_rhs_fin. unfold fsub. simpl. fin_eq.
Qed.

(** The values computed when [math.exp] returns, in exact arithmetic: on
    finite inputs whose bids are at most the mids and whose asks are at
    least the mids, with a non-negative stock spread, the executable gap in
    the inferred direction is at most the size of the mid gap, and strictly
    below it when the mid gap is not zero. *)
Theorem exec_gap_below_mid_gap (s k t rr d cm pm cb ca pb pa cents : R) :
  cb <= cm <= ca -> pb <= pm <= pa -> 0 <= cents ->
  exists e g,
    parity_gap_executable (finite_inputs s k t rr d cm pm cb ca pb pa cents) None
      = Fin e
    /\ parity_gap_mid (finite_inputs s k t rr d cm pm cb ca pb pa cents) = Fin g
    /\ e <= Rabs g /\ (g <> 0 -> e < Rabs g).
Proof.
  intros Hc Hp Hcents.
  set (pi := finite_inputs s k t rr d cm pm cb ca pb pa cents).
  destruct (half_used_finite s k t rr d cm pm cb ca pb pa cents Hcents)
    as (h & Hh & Hpos). fold pi in Hh.
  pose proof (gap_mid_finite s k t rr d cm pm cb ca pb pa cents) as Hg.
  fold pi in Hg. set (g := cm - pm - (s - k * exp (- rr * t) - d)) in *.
  destruct (Rlt_dec 0 g) as [Hgt | Hngt]; [|destruct (Rlt_dec g 0) as [Hlt | Hnlt]].
  - exists ((cb - pa) - ((s + h) - k * exp (- rr * t) - d)), g.
    rewrite exec_gap_A by (right; split; [done|]; rewrite Hg; by apply Rltb_true).
    rewrite Hh. cbn [pi finite_inputs C_bid P_ask]. rewrite !py_or_0_float.
    split; [apply exec_A_fin|]. split; [done|].
    rewrite Rabs_right by lra. subst g. split; intros; lra.
  - exists (((s - h) - k * exp (- rr * t) - d) - (ca - pb)), g.
    rewrite exec_gap_B by (right; split; [done|]; rewrite Hg; by apply Rltb_true).
    rewrite Hh. cbn [pi finite_inputs C_ask P_bid]. rewrite !py_or_0_float.
    split; [apply exec_B_fin|]. split; [done|].
    rewrite Rabs_left by lra. subst g. split; intros; lra.
  - exists 0, g. assert (g = 0) as Hg0 by lra.
    rewrite exec_gap_none; [|rewrite Hg; simpl; apply Rltb_false; lra..].
    split; [done|]. split; [done|]. rewrite Hg0, Rabs_R0. split; [lra|done].
Qed.

Lemma exec_gap_below_mid_gap_witness :
  exists e g,
    parity_gap_executable
      (finite_inputs 100 100 0.25 0.05 0 5 3 4.9 5.1 2.9 3.1 1) None = Fin e
    /\ parity_gap_mid (finite_inputs 100 100 0.25 0.05 0 5 3 4.9 5.1 2.9 3.1 1) = Fin g
    /\ e <= Rabs g /\ (g <> 0 -> e < Rabs g).
Proof. apply exec_gap_below_mid_gap; lra. Defined.



(** ** [compute_row]: failures and defaults *)

Lemma compute_row_ok_inputs row common m :
  compute_row row common = Ok m -> exists pi, build_inputs row common = Ok pi.
Proof.
  unfold compute_row. destruct (build_inputs row common) as [pi|e]; [eauto|done].
Qed.

(** Leaving the overflow of [math.exp] aside, [compute_row] returns
    exactly when the row has a float strike and
    [common] has floats under [S], [tau] and [r]; a [common] without [S]
    raises [KeyError] before the row is looked at, a row without a strike
    raises [KeyError], and a strike that is [None] raises [TypeError]. *)
Theorem compute_row_failures (row common : gmap string pyval) :
  ((exists m, compute_row row common = Ok m)
     <-> is_float (row !! "strike"%string) /\ is_float (common !! "S"%string)
         /\ is_float (common !! "tau"%string) /\ is_float (common !! "r"%string))
  /\ (common !! "S"%string = None -> compute_row row common = Raise KeyError)
  /\ (is_Some (common !! "S"%string) -> row !! "strike"%string = None ->
      compute_row row common = Raise KeyError)
  /\ (is_Some (common !! "S"%string) -> row !! "strike"%string = Some None ->
      compute_row row common = Raise TypeError).
Proof.
  split; [split|].
  - intros [m Hm]. apply compute_row_ok_inputs in Hm as [pi Hpi].
    revert Hpi. unfold build_inputs, getitem, is_float.
    destruct (common !! "S"%string) as [s|]; [|done].
    destruct (row !! "strike"%string) as [[k|]|]; try done.
    destruct (common !! "tau"%string) as [t|]; [|done].
    destruct (common !! "r"%string) as [[rr|]|]; try done.
    destruct t as [t|]; [|done]. destruct s as [s|]; [|done].
    intros _. eauto 10.
  - intros ((k & Hk) & (s & Hs) & (t & Ht) & (rr & Hr)).
    unfold compute_row. rewrite (build_inputs_ok _ _ k s t rr) by done.
    cbn [rbind]. eauto.
  - unfold compute_row, build_inputs, getitem. repeat split.
    + by intros ->.
    + intros [s ->] ->. done.
    + intros [s ->] ->. done.
Qed.

Lemma compute_row_failures_witness :
  compute_row row_strike_only ∅ = Raise KeyError
  /\ compute_row ∅ common_ctx = Raise KeyError
  /\ compute_row (<["strike"%string := None]> ∅) common_ctx = Raise TypeError.
Proof.
  split; [|split].
  - apply (proj1 (proj2 (compute_row_failures row_strike_only ∅))). reflexivity.
  - apply (proj1 (proj2 (proj2 (compute_row_failures ∅ common_ctx)))).
    + exists (Some (Fin 100)). reflexivity.
    + reflexivity.
  - apply (proj2 (proj2 (proj2 (compute_row_failures
                                   (<["strike"%string := None]> ∅) common_ctx)))).
    + exists (Some (Fin 100)). reflexivity.
    + reflexivity.
Defined.

Lemma build_inputs_common_ext row common common' :
  common !! "S"%string = common' !! "S"%string ->
  common !! "tau"%string = common' !! "tau"%string ->
  common !! "r"%string = common' !! "r"%string ->
  py_or (get common "pv_div") (Fin 0) = py_or (get common' "pv_div") (Fin 0) ->
  py_or (get common "stock_spread_cents") (Fin 1)
    = py_or (get common' "stock_spread_cents") (Fin 1) ->
  build_inputs row common = build_inputs row common'.
Proof.
  intros Hs Ht Hr Hd Hc. unfold build_inputs, getitem.
  by rewrite Hs, Ht, Hr, Hd, Hc.
Qed.

(** In [common], a [stock_spread_cents] that is absent, [None] or 0.0
    gives the same result as 1.0, and a [pv_div] that is absent or [None]
    the same as 0.0. *)
Theorem compute_row_defaults (row common : gmap string pyval) (v : pyval) :
  v = None \/ v = Some (Fin 0) ->
  compute_row row (<["stock_spread_cents"%string := v]> common)
    = compute_row row (<["stock_spread_cents"%string := Some (Fin 1)]> common)
  /\ compute_row row (delete "stock_spread_cents"%string common)
    = compute_row row (<["stock_spread_cents"%string := Some (Fin 1)]> common)
  /\ compute_row row (<["pv_div"%string := None]> common)
    = compute_row row (<["pv_div"%string := Some (Fin 0)]> common)
  /\ compute_row row (delete "pv_div"%string common)
    = compute_row row (<["pv_div"%string := Some (Fin 0)]> common).
Proof.
  intros Hv.
  assert (py_or v (Fin 1) = Fin 1) as Hv1.
  { destruct Hv as [-> | ->]; [done|apply py_or_zero]. }
  assert (py_or (Some (Fin 1)) (Fin 1) = Fin 1) as H1 by (apply py_or_nonzero; lra).
  unfold compute_row.
  repeat split; f_equal; apply build_inputs_common_ext;
    rewrite ?lookup_insert_ne, ?lookup_delete_ne by done; try done;
    rewrite ?get_insert_eq, ?get_delete_eq;
    rewrite ?get_insert_ne, ?get_delete_ne by done; try done;
    rewrite ?Hv1, ?H1, ?py_or_zero; done.
Qed.

Lemma compute_row_defaults_witness :
  compute_row row_no_call_bid (<["stock_spread_cents"%string := Some (Fin 0)]> common_ctx)
    = compute_row row_no_call_bid
        (<["stock_spread_cents"%string := Some (Fin 1)]> common_ctx).
Proof.
  apply (proj1 (compute_row_defaults row_no_call_bid common_ctx (Some (Fin 0))
                  (or_intror eq_refl))).
Defined.

(** ** [compute_row]: when the mid gap is known *)

Lemma safe_mid_NaN_iff bid ask last :
  _safe_mid bid ask last = NaN
  <-> usable bid && usable ask || usable last = false.
Proof.
  destruct (usable bid && usable ask) eqn:E.
  - apply andb_prop in E as [Hb Ha].
    apply usable_positive_finite in Hb as (b & -> & Hb).
    apply usable_positive_finite in Ha as (a & -> & Ha).
    rewrite (safe_mid_both _ _ _ b a) by done. simpl. split; done.
  - rewrite safe_mid_fallback by done. simpl.
    destruct last as [l|]; [|done].
    destruct (usable (Some l)) eqn:El; [|done].
    apply usable_positive_finite in El as (x & [= ->] & Hx). split; done.
Qed.

(** Leaving the overflow of [math.exp] aside: with a finite strike, spot,
    time to expiry and rate, and a [pv_div]
    that is finite, [None] or absent, [compute_row] returns; its mid gap is
    NaN exactly when the call side or the put side has no mid (neither a
    usable bid and ask nor a usable last), and is finite otherwise. *)
Theorem compute_row_gap_mid_known (row common : gmap string pyval) (k s t rr : R) :
  row !! "strike"%string = Some (Some (Fin k)) ->
  common !! "S"%string = Some (Some (Fin s)) ->
  common !! "tau"%string = Some (Some (Fin t)) ->
  common !! "r"%string = Some (Some (Fin rr)) ->
  leg_ok (get common "pv_div") ->
  exists m, compute_row row common = Ok m
    /\ (gap_mid m = NaN
        <-> has_mid row "call_bid" "call_ask" "call_lastPrice"
            && has_mid row "put_bid" "put_ask" "put_lastPrice" = false)
    /\ (gap_mid m <> NaN -> isfinite (gap_mid m) = true).
Proof.
  intros Hk Hs Ht Hr Hd. unfold compute_row.
  rewrite (build_inputs_ok _ _ (Fin k) (Fin s) (Fin t) (Fin rr)) by done.
  cbn [rbind]. eexists. split; [reflexivity|]. cbn [gap_mid].
  unfold parity_gap_mid. cbn [S K tau r C_mid P_mid pv_div].
  destruct (py_or_leg_finite _ 0 Hd) as [d ->]. rewrite theoretical_rhs_fin.
  unfold has_mid.
  pose proof (safe_mid_NaN_iff (get row "call_bid") (get row "call_ask")
                (get row "call_lastPrice")) as HC.
  pose proof (safe_mid_NaN_iff (get row "put_bid") (get row "put_ask")
                (get row "put_lastPrice")) as HP.
  destruct (safe_mid_range (get row "call_bid") (get row "call_ask")
              (get row "call_lastPrice")) as [EC | (c & EC & _)];
    destruct (safe_mid_range (get row "put_bid") (get row "put_ask")
                (get row "put_lastPrice")) as [EP | (p & EP & _)];
    rewrite EC, EP in *; cbn [isfinite fsub fneg fadd].
  - apply proj1 in HC. rewrite HC by done. done.
  - apply proj1 in HC. rewrite HC by done. done.
  - apply proj1 in HP. rewrite HP by done. rewrite andb_false_r. done.
  - destruct (_ || _) eqn:E1 in HC; [|by apply proj2 in HC; specialize (HC eq_refl)].
    destruct (_ || _) eqn:E2 in HP; [|by apply proj2 in HP; specialize (HP eq_refl)].
    rewrite E1, E2. done.
Qed.

Lemma compute_row_gap_mid_known_witness :
  exists m, compute_row row_no_call_bid common_ctx = Ok m
    /\ (gap_mid m = NaN
        <-> has_mid row_no_call_bid "call_bid" "call_ask" "call_lastPrice"
            && has_mid row_no_call_bid "put_bid" "put_ask" "put_lastPrice" = false)
    /\ (gap_mid m <> NaN -> isfinite (gap_mid m) = true).
Proof.
  apply (compute_row_gap_mid_known row_no_call_bid common_ctx 100 100 0.25 0.05);
    try reflexivity.
  right. exists 0. reflexivity.
Defined.

(** ** [time_to_expiry_years] *)

(** For an expiry that parses, [time_to_expiry_years] is the number of
    whole days from [now] to the expiry over 365.25; it is never negative,
    and it is zero for every expiry less than a full day after [now], past
    ones included.  An expiry that does not parse raises. *)
Theorem time_to_expiry_years_range (to_datetime : string -> option Z)
    (now : Z) (expiry : string) :
  (to_datetime expiry = None ->
     time_to_expiry_years to_datetime now expiry = Raise ValueError)
  /\ (forall exp, to_datetime expiry = Some exp ->
        exists y, time_to_expiry_years to_datetime now expiry = Ok (Fin y)
          /\ 0 <= y
          /\ ((exp < now + ns_per_day)%Z -> y = 0)
          /\ ((now + ns_per_day <= exp)%Z ->
              y = IZR ((exp - now) / ns_per_day) / 365.25 /\ 1 / 365.25 <= y)).
Proof.
  unfold time_to_expiry_years. split; [by intros ->|].
  intros exp ->. eexists. split; [reflexivity|].
  assert (0 <= IZR (Z.max (days (exp - now)) 0)) as H0 by (apply IZR_le; lia).
  split; [lra|]. unfold days, ns_per_day. split.
  - intros Hlt.
    assert (((exp - now) / 86400000000000)%Z <= 0)%Z as Hd.
    { apply Z.lt_succ_r. apply Z.div_lt_upper_bound; lia. }
    rewrite Z.max_r by done. lra.
  - intros Hge.
    assert (1 <= (exp - now) / 86400000000000)%Z as Hd.
    { apply Z.div_le_lower_bound; lia. }
    rewrite Z.max_l by lia. split; [done|].
    apply IZR_le in Hd. lra.
Qed.

Lemma time_to_expiry_years_range_witness :
  exists y, time_to_expiry_years sample_to_datetime (101 * ns_per_day) "2030-01-18"
              = Ok (Fin y)
    /\ 0 <= y
    /\ ((100 * ns_per_day < 101 * ns_per_day + ns_per_day)%Z -> y = 0)
    /\ ((101 * ns_per_day + ns_per_day <= 100 * ns_per_day)%Z ->
        y = IZR ((100 * ns_per_day - 101 * ns_per_day) / ns_per_day) / 365.25
        /\ 1 / 365.25 <= y).
Proof.
  apply (proj2 (time_to_expiry_years_range sample_to_datetime
                  (101 * ns_per_day) "2030-01-18")).
  reflexivity.
Defined.

(** A later expiry never has a shorter time to expiry, and an earlier
    [now] never a shorter one. *)
Theorem time_to_expiry_years_mono (to_datetime : string -> option Z)
    (now now' : Z) (e1 e2 : string) (t1 t2 : Z) :
  to_datetime e1 = Some t1 -> to_datetime e2 = Some t2 ->
  (t1 <= t2)%Z -> (now' <= now)%Z ->
  exists y1 y2,
    time_to_expiry_years to_datetime now e1 = Ok (Fin y1)
    /\ time_to_expiry_years to_datetime now' e2 = Ok (Fin y2)
    /\ y1 <= y2.
Proof.
  intros H1 H2 Ht Hn. unfold time_to_expiry_years. rewrite H1, H2.
  do 2 eexists. split; [reflexivity|]. split; [reflexivity|].
  assert (days (t1 - now) <= days (t2 - now'))%Z as Hd.
  { unfold days, ns_per_day. apply Z.div_le_mono; lia. }
  assert (IZR (Z.max (days (t1 - now)) 0) <= IZR (Z.max (days (t2 - now')) 0)) as H
    by (apply IZR_le; lia).
  lra.
Qed.

Lemma time_to_expiry_years_mono_witness :
  exists y1 y2,
    time_to_expiry_years sample_to_datetime 5 "2030-01-18" = Ok (Fin y1)
    /\ time_to_expiry_years sample_to_datetime 0 "2030-02-15" = Ok (Fin y2)
    /\ y1 <= y2.
Proof.
  apply (time_to_expiry_years_mono sample_to_datetime 5 0 "2030-01-18" "2030-02-15"
           (100 * ns_per_day) (100 * ns_per_day)); (reflexivity || lia).
Defined.

(** ** [pv_of_dividends]: errors, order, bounds *)

Lemma pv_of_dividends_loop to_datetime ds start expiry exp r_annual :
  to_datetime expiry = Some exp ->
  pv_of_dividends to_datetime (Some ds) start expiry r_annual
    = Ok (fsum (map (discounted start r_annual)
                    (List.filter (in_window start exp) ds))).
Proof.
  intros Hexp. unfold pv_of_dividends. destruct ds as [|p ds]; [done|].
  rewrite Hexp. destruct (List.filter _ _) as [|q l]; [done|].
  by rewrite pv_loop_sum, fadd_0_l.
Qed.

(** [pv_of_dividends] raises only for a series that is not empty together
    with an expiry that does not parse, and then [ValueError]; a series
    that is [None] or empty gives 0.0 whatever the expiry string is. *)
Theorem pv_of_dividends_failures (to_datetime : string -> option Z)
    (ds : list (Z * pyfloat)) (start : Z) (expiry : string) (r_annual : pyfloat) :
  (forall e, pv_of_dividends to_datetime (Some ds) start expiry r_annual = Raise e
             <-> ds <> [] /\ to_datetime expiry = None /\ e = ValueError)
  /\ (forall e, pv_of_dividends to_datetime None start expiry r_annual <> Raise e).
Proof.
  split; [|done]. intros e. unfold pv_of_dividends.
  destruct ds as [|p ds]; [split; [done|by intros [? _]]|].
  destruct (to_datetime expiry) as [exp|].
  - destruct (List.filter _ _); split; (done || by intros (_ & ? & _)).
  - split; [by intros [= <-]|by intros (_ & _ & ->)].
Qed.

Lemma filter_Permutation_bool {A} (f : A -> bool) (l l' : list A) :
  l ≡ₚ l' -> List.filter f l ≡ₚ List.filter f l'.
Proof.
  induction 1 as [|x l l' _ IH|x y l|l1 l2 l3 _ IH1 _ IH2]; simpl.
  - done.
  - destruct (f x); by rewrite IH.
  - destruct (f x), (f y); try done. apply perm_swap.
  - by rewrite IH1.
Qed.

Lemma fsum_Permutation (l l' : list pyfloat) : l ≡ₚ l' -> fsum l = fsum l'.
Proof.
  unfold fsum.
  induction 1 as [|x l l' _ IH|x y l|l1 l2 l3 _ IH1 _ IH2]; simpl.
  - done.
  - by rewrite IH.
  - by rewrite !fadd_assoc, (fadd_comm y x).
  - by rewrite IH1.
Qed.

(** The present value does not depend on the order of the series. *)
Theorem pv_of_dividends_Permutation (to_datetime : string -> option Z)
    (ds ds' : list (Z * pyfloat)) (start : Z) (expiry : string) (r_annual : pyfloat) :
  ds ≡ₚ ds' ->
  pv_of_dividends to_datetime (Some ds) start expiry r_annual
    = pv_of_dividends to_datetime (Some ds') start expiry r_annual.
Proof.
  intros Hp. destruct (to_datetime expiry) as [exp|] eqn:Hexp.
  - rewrite !(pv_of_dividends_loop _ _ _ _ exp) by done. f_equal.
    apply fsum_Permutation, Permutation_map. by apply filter_Permutation_bool.
  - unfold pv_of_dividends. rewrite Hexp.
    destruct ds as [|p ds], ds' as [|p' ds']; try done.
    + by apply Permutation_nil_cons in Hp.
    + symmetry in Hp. by apply Permutation_nil_cons in Hp.
Qed.

Lemma pv_of_dividends_Permutation_witness :
  pv_of_dividends sample_to_datetime (Some sample_divs) 0 "2030-01-18" (Fin 0.05)
    = pv_of_dividends sample_to_datetime (Some (reverse sample_divs)) 0
        "2030-01-18" (Fin 0.05).
Proof.
  apply pv_of_dividends_Permutation. symmetry. apply reverse_Permutation.
Defined.

Lemma filter_fin_divs start exp l :
  List.filter (in_window start exp) (fin_divs l) = fin_divs (window start exp l).
Proof.
  unfold window, fin_divs. induction l as [|p l IH]; [done|]. simpl.
  unfold in_window at 1. simpl. destruct (_ && _); simpl; by rewrite IH.
Qed.

Lemma fsum_discounted_fin start rate l :
  fsum (map (discounted start (Fin rate)) (fin_divs l))
    = Fin (pv_real start rate l).
Proof.
  unfold fsum, fin_divs, pv_real. induction l as [|p l IH]; [done|].
  simpl. rewrite IH. unfold discounted. rewrite years_since_days.
  unfold year_frac. by simpl.
Qed.

(** On a series of finite amounts at a finite rate the present value is
    the real sum of the discounted amounts in the window. *)
Lemma pv_of_dividends_real to_datetime l start expiry exp rate :
  to_datetime expiry = Some exp ->
  pv_of_dividends to_datetime (Some (fin_divs l)) start expiry (Fin rate)
    = Ok (Fin (pv_real start rate (window start exp l))).
Proof.
  intros Hexp. rewrite (pv_of_dividends_loop _ _ _ _ exp) by done.
  by rewrite filter_fin_divs, fsum_discounted_fin.
Qed.

Lemma exp_le_mono x y : x <= y -> exp x <= exp y.
Proof.
  intros [Hlt | ->]; [|lra]. left. by apply exp_increasing.
Qed.

Lemma year_frac_nonneg start d : 0 <= year_frac start d.
Proof. unfold year_frac. apply Rmax_r. Qed.

Lemma discount_factor_range start d rate :
  0 <= rate -> 0 < exp (- rate * year_frac start d) <= 1.
Proof.
  intros Hr. split; [apply exp_pos|].
  rewrite <- exp_0. apply exp_le_mono.
  pose proof (year_frac_nonneg start d). nra.
Qed.

Lemma window_amount_sum start exp l :
  (forall p, p ∈ l -> 0 <= p.2) ->
  0 <= amount_sum (window start exp l) <= amount_sum l.
Proof.
  unfold window, amount_sum. induction l as [|p l IH]; intros Hl; simpl; [lra|].
  assert (0 <= p.2) by (apply Hl; left).
  assert (forall q, q ∈ l -> 0 <= q.2) as Hl' by (intros; apply Hl; by right).
  specialize (IH Hl'). destruct (_ && _); simpl; lra.
Qed.

Lemma window_nonneg start exp l :
  (forall p, p ∈ l -> 0 <= p.2) -> forall p, p ∈ window start exp l -> 0 <= p.2.
Proof.
  intros Hl p Hp. apply Hl. unfold window in Hp.
  apply list_elem_of_In, filter_In in Hp as [Hp _]. by apply list_elem_of_In.
Qed.

Lemma pv_real_bounds start rate l :
  (forall p, p ∈ l -> 0 <= p.2) -> 0 <= rate ->
  0 <= pv_real start rate l <= amount_sum l.
Proof.
  unfold pv_real, amount_sum. intros Hl Hr.
  induction l as [|p l IH]; simpl; [lra|].
  assert (0 <= p.2) by (apply Hl; left).
  assert (forall q, q ∈ l -> 0 <= q.2) as Hl' by (intros; apply Hl; by right).
  specialize (IH Hl'). pose proof (discount_factor_range start p.1 rate Hr). nra.
Qed.

(** With finite non-negative amounts and a finite non-negative rate the
    present value is a finite number between 0 and the sum of the amounts
    in the window, which is at most the sum of all amounts. *)
Theorem pv_of_dividends_bounds (to_datetime : string -> option Z)
    (l : list (Z * R)) (start : Z) (expiry : string) (exp : Z) (rate : R) :
  to_datetime expiry = Some exp ->
  (forall p, p ∈ l -> 0 <= p.2) -> 0 <= rate ->
  exists v,
    pv_of_dividends to_datetime (Some (fin_divs l)) start expiry (Fin rate) = Ok (Fin v)
    /\ 0 <= v <= amount_sum (window start exp l)
    /\ amount_sum (window start exp l) <= amount_sum l.
Proof.
  intros Hexp Hl Hr. eexists. split; [by apply pv_of_dividends_real|].
  split.
  - apply pv_real_bounds; [|done]. by apply window_nonneg.
  - by apply window_amount_sum.
Qed.

Lemma sample_amounts_nonneg : forall p, p ∈ sample_amounts -> 0 <= p.2.
Proof.
  intros p Hp. unfold sample_amounts in Hp.
  repeat (apply elem_of_cons in Hp as [-> | Hp]); simpl; try lra.
  by apply elem_of_nil in Hp.
Qed.

Lemma pv_of_dividends_bounds_witness :
  exists v,
    pv_of_dividends sample_to_datetime (Some (fin_divs sample_amounts)) 0
      "2030-01-18" (Fin 0.05) = Ok (Fin v)
    /\ 0 <= v <= amount_sum (window 0 (100 * ns_per_day) sample_amounts)
    /\ amount_sum (window 0 (100 * ns_per_day) sample_amounts)
       <= amount_sum sample_amounts.
Proof.
  apply (pv_of_dividends_bounds sample_to_datetime sample_amounts 0 "2030-01-18"
           (100 * ns_per_day) 0.05).
  - reflexivity.
  - exact sample_amounts_nonneg.
  - lra.
Defined.

Lemma pv_real_zero_rate start l : pv_real start 0 l = amount_sum l.
Proof.
  unfold pv_real, amount_sum. induction l as [|p l IH]; [done|]. simpl.
  rewrite IH. replace (- 0 * year_frac start p.1) with 0 by lra.
  rewrite exp_0. lra.
Qed.

(** At a zero rate the present value of a finite series is the plain sum of
    the amounts in the window. *)
Theorem pv_of_dividends_zero_rate (to_datetime : string -> option Z)
    (l : list (Z * R)) (start : Z) (expiry : string) (exp : Z) :
  to_datetime expiry = Some exp ->
  pv_of_dividends to_datetime (Some (fin_divs l)) start expiry (Fin 0)
    = Ok (Fin (amount_sum (window start exp l))).
Proof.
  intros Hexp. rewrite (pv_of_dividends_real _ _ _ _ exp) by done.
  by rewrite pv_real_zero_rate.
Qed.

Lemma pv_of_dividends_zero_rate_witness :
  pv_of_dividends sample_to_datetime (Some (fin_divs sample_amounts)) 0
    "2030-01-18" (Fin 0)
  = Ok (Fin (amount_sum (window 0 (100 * ns_per_day) sample_amounts))).
Proof. apply pv_of_dividends_zero_rate. reflexivity. Defined.

Lemma pv_real_antitone start r1 r2 l :
  (forall p, p ∈ l -> 0 <= p.2) -> r1 <= r2 ->
  pv_real start r2 l <= pv_real start r1 l.
Proof.
  unfold pv_real. intros Hl Hr. induction l as [|p l IH]; simpl; [lra|].
  assert (0 <= p.2) by (apply Hl; left).
  assert (forall q, q ∈ l -> 0 <= q.2) as Hl' by (intros; apply Hl; by right).
  specialize (IH Hl').
  assert (exp (- r2 * year_frac start p.1) <= exp (- r1 * year_frac start p.1)).
  { apply exp_le_mono. pose proof (year_frac_nonneg start p.1). nra. }
  nra.
Qed.

(** With finite non-negative amounts a higher rate never gives a higher
    present value. *)
Theorem pv_of_dividends_antitone (to_datetime : string -> option Z)
    (l : list (Z * R)) (start : Z) (expiry : string) (exp : Z) (r1 r2 : R) :
  to_datetime expiry = Some exp ->
  (forall p, p ∈ l -> 0 <= p.2) -> r1 <= r2 ->
  exists v1 v2,
    pv_of_dividends to_datetime (Some (fin_divs l)) start expiry (Fin r1) = Ok (Fin v1)
    /\ pv_of_dividends to_datetime (Some (fin_divs l)) start expiry (Fin r2) = Ok (Fin v2)
    /\ v2 <= v1.
Proof.
  intros Hexp Hl Hr. do 2 eexists.
  split; [by apply pv_of_dividends_real|].
  split; [by apply pv_of_dividends_real|].
  apply pv_real_antitone; [|done]. by apply window_nonneg.
Qed.

Lemma pv_of_dividends_antitone_witness :
  exists v1 v2,
    pv_of_dividends sample_to_datetime (Some (fin_divs sample_amounts)) 0
      "2030-01-18" (Fin 0.01) = Ok (Fin v1)
    /\ pv_of_dividends sample_to_datetime (Some (fin_divs sample_amounts)) 0
      "2030-01-18" (Fin 0.05) = Ok (Fin v2)
    /\ v2 <= v1.
Proof.
  apply (pv_of_dividends_antitone sample_to_datetime sample_amounts 0 "2030-01-18"
           (100 * ns_per_day) 0.01 0.05).
  - reflexivity.
  - exact sample_amounts_nonneg.
  - lra.
Defined.

(** ** [choose_expiries] *)

Lemma choose_loop_parsed to_datetime now min_dte max_dte all_exps kept :
  (forall e, e ∈ all_exps -> is_Some (to_datetime e)) ->
  choose_loop to_datetime now min_dte max_dte all_exps kept
    = Ok (kept ++ List.filter (dte_ok to_datetime now min_dte max_dte) all_exps).
Proof.
  revert kept. induction all_exps as [|e rest IH]; intros kept Hall; simpl.
  - by rewrite app_nil_r.
  - destruct (Hall e) as [t Ht]; [by left|].
    unfold dte_ok at 1. rewrite Ht. cbn zeta.
    rewrite IH by (intros; apply Hall; by right).
    destruct (dte_in_range _ _ _); [|done]. by rewrite <- app_assoc.
Qed.

Lemma choose_loop_result to_datetime now min_dte max_dte all_exps kept :
  (exists e, e ∈ all_exps /\ to_datetime e = None)
  /\ choose_loop to_datetime now min_dte max_dte all_exps kept = Raise ValueError
  \/ (forall e, e ∈ all_exps -> is_Some (to_datetime e)).
Proof.
  revert kept. induction all_exps as [|e rest IH]; intros kept.
  - right. intros e He. by apply elem_of_nil in He.
  - simpl. destruct (to_datetime e) as [t|] eqn:Ht.
    + cbn zeta.
      destruct (IH (if dte_in_range min_dte max_dte (days (t - now))
                    then kept ++ [e] else kept)) as [[(b & Hb & Hn) Hr] | Hall].
      * left. split; [|done]. exists b. split; [by right|done].
      * right. intros x [-> | Hx]%elem_of_cons; [by rewrite Ht|by apply Hall].
    + left. split; [|done]. exists e. split; [by left|done].
Qed.

Lemma filter_bool_sublist {A} (f : A -> bool) (l : list A) :
  List.filter f l `sublist_of` l.
Proof.
  induction l as [|x l IH]; simpl; [done|].
  destruct (f x); by constructor.
Qed.

(** A list of expiries given by the caller is returned as it is: nothing
    is parsed, filtered or cut off. *)
Theorem choose_expiries_explicit (to_datetime : string -> option Z)
    (all_exps : list string) (now : Z) (es : list string) (min_dte max_dte : Z) :
  es <> [] ->
  choose_expiries to_datetime all_exps now (Some es) min_dte max_dte = Ok es.
Proof. intros Hes. unfold choose_expiries. by destruct es. Qed.

Lemma choose_expiries_explicit_witness :
  choose_expiries (fun _ => None) [] 0 (Some ["not a date"%string]) 7 120
    = Ok ["not a date"%string].
Proof. apply choose_expiries_explicit. discriminate. Defined.

(** Without a list from the caller, and with every listed expiry parsing,
    the result is the first 20 of the listed expiries whose days to expiry
    lie in [[min_dte, max_dte]]: at most 20 entries, in the listed order,
    each within the range. *)
Theorem choose_expiries_auto (to_datetime : string -> option Z)
    (all_exps : list string) (now : Z) (expiries : option (list string))
    (min_dte max_dte : Z) :
  expiries = None \/ expiries = Some [] ->
  (forall e, e ∈ all_exps -> is_Some (to_datetime e)) ->
  exists kept,
    choose_expiries to_datetime all_exps now expiries min_dte max_dte = Ok kept
    /\ kept = take 20 (List.filter (dte_ok to_datetime now min_dte max_dte) all_exps)
    /\ (length kept <= 20)%nat
    /\ kept `sublist_of` all_exps
    /\ (forall e, e ∈ kept ->
          exists t, to_datetime e = Some t
                    /\ (min_dte <= days (t - now) <= max_dte)%Z).
Proof.
  intros Hmode Hall. eexists. split; [|split; [reflexivity|]].
  - unfold choose_expiries.
    destruct Hmode as [-> | ->]; by rewrite choose_loop_parsed.
  - split; [rewrite length_take; lia|]. split.
    + etrans; [apply sublist_take|apply filter_bool_sublist].
    + intros e He. apply elem_of_take in He as (i & He & _).
      apply list_elem_of_lookup_2, list_elem_of_In, filter_In in He as [_ He].
      unfold dte_ok in He. destruct (to_datetime e) as [t|]; [|done].
      exists t. split; [done|]. unfold dte_in_range in He.
      apply andb_prop in He as [H1%Z.leb_le H2%Z.leb_le]. lia.
Qed.

(** Without a list from the caller, the call raises exactly when some
    listed expiry does not parse, also one that would not have been kept. *)
Theorem choose_expiries_auto_failure (to_datetime : string -> option Z)
    (all_exps : list string) (now : Z) (expiries : option (list string))
    (min_dte max_dte : Z) :
  expiries = None \/ expiries = Some [] ->
  (choose_expiries to_datetime all_exps now expiries min_dte max_dte
     = Raise ValueError
   <-> exists e, e ∈ all_exps /\ to_datetime e = None).
Proof.
  intros Hmode.
  assert (choose_expiries to_datetime all_exps now expiries min_dte max_dte
          = (kept <-- choose_loop to_datetime now min_dte max_dte all_exps [] ;;
             Ok (take 20 kept))) as ->
    by (by destruct Hmode as [-> | ->]).
  destruct (choose_loop_result to_datetime now min_dte max_dte all_exps [])
    as [[Hbad Hr] | Hall].
  - rewrite Hr. done.
  - rewrite choose_loop_parsed by done. cbn [rbind]. split; [done|].
    intros (e & He & Hn). destruct (Hall e He) as [t Ht]. congruence.
Qed.

Lemma sample_table_parses :
  forall e, e ∈ sample_table.*1 -> is_Some (table_to_datetime sample_table e).
Proof.
  intros e He. cbn in He.
  repeat (apply elem_of_cons in He as [-> | He]); [by eexists..|].
  by apply elem_of_nil in He.
Qed.

Lemma choose_expiries_auto_witness :
  exists kept,
    choose_expiries (table_to_datetime sample_table) sample_table.*1 0 None 7 120
      = Ok kept
    /\ kept = take 20 (List.filter (dte_ok (table_to_datetime sample_table) 0 7 120)
                         sample_table.*1)
    /\ (length kept <= 20)%nat
    /\ kept `sublist_of` sample_table.*1
    /\ (forall e, e ∈ kept ->
          exists t, table_to_datetime sample_table e = Some t
                    /\ (7 <= days (t - 0) <= 120)%Z).
Proof.
  apply (choose_expiries_auto (table_to_datetime sample_table) sample_table.*1
           0 None 7 120 (or_introl eq_refl)).
  exact sample_table_parses.
Defined.

(** On the sample table the expiries 10 and 17 days ahead are kept, the one
    3 days ahead and the one 171 days ahead are not. *)
Lemma choose_expiries_sample :
  choose_expiries (table_to_datetime sample_table) sample_table.*1 0 None 7 120
    = Ok ["2030-01-11"; "2030-01-18"]%string.
Proof. reflexivity. Qed.

Lemma choose_expiries_auto_failure_witness :
  choose_expiries (table_to_datetime sample_table)
    ["2030-01-04"; "someday"]%string 0 (Some []) 7 120 = Raise ValueError
  <-> exists e, e ∈ ["2030-01-04"; "someday"]%string
                /\ table_to_datetime sample_table e = None.
Proof.
  apply (choose_expiries_auto_failure (table_to_datetime sample_table)
           ["2030-01-04"; "someday"]%string 0 (Some []) 7 120).
  right. reflexivity.
Defined.

(** ** The summary of one expiry *)

Lemma count_true_le (x : list bool) : (count_true x <= length x)%nat.
Proof.
  unfold count_true. induction x as [|[] x IH]; simpl; lia.
Qed.

Lemma count_true_mono {A} (f g : A -> bool) (l : list A) :
  (forall a, f a = true -> g a = true) ->
  (count_true (map f l) <= count_true (map g l))%nat.
Proof.
  intros Hfg. unfold count_true. induction l as [|a l IH]; simpl; [lia|].
  destruct (f a) eqn:Ef.
  - rewrite (Hfg a Ef). simpl. lia.
  - destruct (g a); simpl; lia.
Qed.

Lemma pct_value {A} (f : A -> bool) (l : list A) :
  l <> [] ->
  pct (map f l) = Fin (100 * (INR (count_true (map f l)) / INR (length l))).
Proof.
  intros Hl. destruct l as [|a l]; [done|].
  unfold pct. cbn [map fmul length]. by rewrite length_map.
Qed.

Lemma share_range (c n : nat) :
  (c <= n)%nat -> (0 < n)%nat -> 0 <= 100 * (INR c / INR n) <= 100.
Proof.
  intros Hc Hn. apply le_INR in Hc. apply lt_INR in Hn. simpl in Hn.
  assert (0 <= INR c) by apply pos_INR.
  assert (0 <= INR c / INR n <= 1); [|lra].
  split.
  - apply Rmult_le_pos; [done|]. left. by apply Rinv_0_lt_compat.
  - apply (Rmult_le_reg_r (INR n)); [done|]. field_simplify; lra.
Qed.

Lemma share_mono (c c' n : nat) :
  (c <= c')%nat -> (0 < n)%nat -> 100 * (INR c / INR n) <= 100 * (INR c' / INR n).
Proof.
  intros Hc Hn. apply le_INR in Hc. apply lt_INR in Hn. simpl in Hn.
  apply Rmult_le_compat_l; [lra|].
  apply Rmult_le_compat_r; [|done]. left. by apply Rinv_0_lt_compat.
Qed.

Lemma fgt_trans_const a x y : x <= y -> fgt a (Fin y) = true -> fgt a (Fin x) = true.
Proof.
  intros Hxy. destruct a; simpl; try done.
  intros H%Rltb_true. apply Rltb_true. lra.
Qed.

(** For the rows of an expiry, the three percentages are numbers between 0
    and 100, the share of rows above 5 cents is at most the share above
    1 cent, and [n_strikes] is the number of rows. *)
Theorem summarize_group_percentages (g : list Metrics) :
  g <> [] ->
  exists p1 p5 pe,
    pct_mid_gt_1c (summarize_group g) = Fin p1
    /\ pct_mid_gt_5c (summarize_group g) = Fin p5
    /\ pct_exec_gt_0 (summarize_group g) = Fin pe
    /\ 0 <= p5 <= p1 /\ p1 <= 100 /\ 0 <= pe <= 100
    /\ n_strikes (summarize_group g) = length g.
Proof.
  intros Hg. unfold summarize_group.
  cbn [pct_mid_gt_1c pct_mid_gt_5c pct_exec_gt_0 n_strikes].
  rewrite !map_map. rewrite !pct_value by done.
  assert (0 < length g)%nat as Hn by (destruct g; [done|simpl; lia]).
  do 3 eexists. split; [reflexivity|]. split; [reflexivity|].
  split; [reflexivity|].
  pose proof (count_true_le (map (fun m => fgt (fabs (gap_mid m)) (Fin 0.01)) g)) as H1.
  pose proof (count_true_le (map (fun m => fgt (fabs (gap_mid m)) (Fin 0.05)) g)) as H5.
  pose proof (count_true_le (map (fun m => fgt (gap_exec m) (Fin 0)) g)) as He.
  rewrite length_map in H1, H5, He.
  pose proof (count_true_mono (fun m => fgt (fabs (gap_mid m)) (Fin 0.05))
                (fun m => fgt (fabs (gap_mid m)) (Fin 0.01)) g) as Hm.
  split; [split|].
  - apply share_range; done.
  - apply share_mono; [|done]. apply Hm. intros m.
    apply fgt_trans_const. lra.
  - split; [by apply share_range|]. split; [by apply share_range|done].
Qed.

Lemma summarize_group_percentages_witness :
  exists p1 p5 pe,
    pct_mid_gt_1c (summarize_group [mkMetrics (Fin 0.03) NaN; mkMetrics NaN (Fin 0)])
      = Fin p1
    /\ pct_mid_gt_5c (summarize_group [mkMetrics (Fin 0.03) NaN; mkMetrics NaN (Fin 0)])
      = Fin p5
    /\ pct_exec_gt_0 (summarize_group [mkMetrics (Fin 0.03) NaN; mkMetrics NaN (Fin 0)])
      = Fin pe
    /\ 0 <= p5 <= p1 /\ p1 <= 100 /\ 0 <= pe <= 100
    /\ n_strikes (summarize_group [mkMetrics (Fin 0.03) NaN; mkMetrics NaN (Fin 0)])
       = length [mkMetrics (Fin 0.03) NaN; mkMetrics NaN (Fin 0)].
Proof. apply summarize_group_percentages. discriminate. Defined.

(** A row whose mid gap is NaN counts in the denominator of the two mid
    percentages and never in their numerators, and leaves the mean and the
    maximum of the absolute mid gap as they are. *)
Theorem summarize_group_unknown_row (m : Metrics) (g : list Metrics) :
  gap_mid m = NaN ->
  exists c1 c5 : nat,
    (c1 <= length g)%nat /\ (c5 <= length g)%nat
    /\ pct_mid_gt_1c (summarize_group (m :: g))
       = Fin (100 * (INR c1 / INR (length g + 1)))
    /\ pct_mid_gt_5c (summarize_group (m :: g))
       = Fin (100 * (INR c5 / INR (length g + 1)))
    /\ (g <> [] ->
        pct_mid_gt_1c (summarize_group g) = Fin (100 * (INR c1 / INR (length g)))
        /\ pct_mid_gt_5c (summarize_group g) = Fin (100 * (INR c5 / INR (length g))))
    /\ avg_abs_mid (summarize_group (m :: g)) = avg_abs_mid (summarize_group g)
    /\ max_abs_mid (summarize_group (m :: g)) = max_abs_mid (summarize_group g).
Proof.
  intros Hm.
  exists (count_true (map (fun m => fgt (fabs (gap_mid m)) (Fin 0.01)) g)),
         (count_true (map (fun m => fgt (fabs (gap_mid m)) (Fin 0.05)) g)).
  pose proof (count_true_le (map (fun m => fgt (fabs (gap_mid m)) (Fin 0.01)) g)) as H1.
  pose proof (count_true_le (map (fun m => fgt (fabs (gap_mid m)) (Fin 0.05)) g)) as H5.
  rewrite length_map in H1, H5.
  split; [done|]. split; [done|].
  unfold summarize_group.
  cbn [pct_mid_gt_1c pct_mid_gt_5c avg_abs_mid max_abs_mid].
  rewrite !map_map.
  assert (length (m :: g) = (length g + 1)%nat) as Hlen by (simpl; lia).
  split; [|split; [|split; [|split]]].
  - rewrite pct_value by done. rewrite Hlen. cbn [map]. rewrite Hm. done.
  - rewrite pct_value by done. rewrite Hlen. cbn [map]. rewrite Hm. done.
  - intros Hg. by rewrite !pct_value.
  - unfold series_mean, dropna. cbn [map List.filter]. by rewrite Hm.
  - unfold series_max, dropna. cbn [map List.filter]. by rewrite Hm.
Qed.

Lemma summarize_group_unknown_row_witness :
  exists c1 c5 : nat,
    (c1 <= 1)%nat /\ (c5 <= 1)%nat
    /\ pct_mid_gt_1c (summarize_group [mkMetrics NaN (Fin 0); mkMetrics (Fin 0.03) NaN])
       = Fin (100 * (INR c1 / INR (1 + 1)))
    /\ pct_mid_gt_5c (summarize_group [mkMetrics NaN (Fin 0); mkMetrics (Fin 0.03) NaN])
       = Fin (100 * (INR c5 / INR (1 + 1)))
    /\ ([mkMetrics (Fin 0.03) NaN] <> [] ->
        pct_mid_gt_1c (summarize_group [mkMetrics (Fin 0.03) NaN])
          = Fin (100 * (INR c1 / INR 1))
        /\ pct_mid_gt_5c (summarize_group [mkMetrics (Fin 0.03) NaN])
          = Fin (100 * (INR c5 / INR 1)))
    /\ avg_abs_mid (summarize_group [mkMetrics NaN (Fin 0); mkMetrics (Fin 0.03) NaN])
       = avg_abs_mid (summarize_group [mkMetrics (Fin 0.03) NaN])
    /\ max_abs_mid (summarize_group [mkMetrics NaN (Fin 0); mkMetrics (Fin 0.03) NaN])
       = max_abs_mid (summarize_group [mkMetrics (Fin 0.03) NaN]).
Proof.
  apply (summarize_group_unknown_row (mkMetrics NaN (Fin 0))
           [mkMetrics (Fin 0.03) NaN]).
  reflexivity.
Defined.

Lemma fold_fadd_fin (xs : list R) (s0 : R) :
  fold_left fadd (map Fin xs) (Fin s0) = Fin (s0 + Rsum xs).
Proof.
  revert s0. induction xs as [|x xs IH]; intros s0; simpl.
  - apply (f_equal Fin). lra.
  - rewrite IH. apply (f_equal Fin). lra.
Qed.

Lemma fold_max_fin (xs : list R) (v : R) :
  exists M, fold_left (fun m a => if fgt a m then a else m) (map Fin xs) (Fin v) = Fin M
            /\ v <= M /\ forall x, x ∈ xs -> x <= M.
Proof.
  revert v. induction xs as [|x xs IH]; intros v; simpl.
  - exists v. split; [done|]. split; [lra|]. intros x Hx. by apply elem_of_nil in Hx.
  - destruct (Rltb v x) eqn:E.
    + apply Rltb_true in E. destruct (IH x) as (M & HM & Hv & Hall).
      exists M. split; [done|]. split; [lra|].
      intros y [-> | Hy]%elem_of_cons; [done|by apply Hall].
    + apply Rltb_false in E. destruct (IH v) as (M & HM & Hv & Hall).
      exists M. split; [done|]. split; [done|].
      intros y [-> | Hy]%elem_of_cons; [lra|by apply Hall].
Qed.

Lemma Rsum_bounds (xs : list R) (M : R) :
  (forall x, x ∈ xs -> 0 <= x <= M) ->
  0 <= Rsum xs <= INR (length xs) * M.
Proof.
  induction xs as [|x xs IH]; intros Hall.
  - simpl. lra.
  - cbn [Rsum foldr length]. rewrite S_INR. fold (Rsum xs).
    assert (0 <= x <= M) by (apply Hall; left).
    assert (0 <= Rsum xs <= INR (length xs) * M)
      by (apply IH; intros; apply Hall; by right).
    lra.
Qed.

Lemma dropna_abs_mid (g : list Metrics) :
  Forall known_or_nan g ->
  exists xs : list R,
    dropna (map (fun m => fabs (gap_mid m)) g) = map Fin xs
    /\ (forall y, y ∈ xs -> 0 <= y)
    /\ (forall m x, m ∈ g -> gap_mid m = Fin x -> Rabs x ∈ xs).
Proof.
  unfold dropna. induction 1 as [|m g Hm _ (xs & Hxs & Hpos & Hin)].
  - exists []. split; [done|]. split.
    + intros y Hy. by apply elem_of_nil in Hy.
    + intros m x Hm. by apply elem_of_nil in Hm.
  - cbn [map List.filter]. destruct Hm as [Hm | [x Hm]]; rewrite Hm.
    + exists xs. cbn [fabs is_nan negb]. split; [done|]. split; [done|].
      intros m' x' [-> | Hm']%elem_of_cons Hx'; [congruence|by eapply Hin].
    + exists (Rabs x :: xs). cbn [fabs is_nan negb map]. rewrite Hxs.
      split; [done|]. split.
      * intros y [-> | Hy]%elem_of_cons; [apply Rabs_pos|by apply Hpos].
      * intros m' x' [-> | Hm']%elem_of_cons Hx'.
        -- rewrite Hm in Hx'. injection Hx' as ->. by left.
        -- right. by eapply Hin.
Qed.

(** For rows whose mid gaps are finite or NaN, at least one of them finite,
    the mean and the maximum of the absolute mid gap are finite, the mean is
    between 0 and the maximum, and no row's absolute mid gap exceeds the
    maximum. *)
Theorem summarize_group_avg_max (g : list Metrics) :
  Forall known_or_nan g ->
  (exists m x, m ∈ g /\ gap_mid m = Fin x) ->
  exists a M,
    avg_abs_mid (summarize_group g) = Fin a
    /\ max_abs_mid (summarize_group g) = Fin M
    /\ 0 <= a <= M
    /\ (forall m x, m ∈ g -> gap_mid m = Fin x -> Rabs x <= M).
Proof.
  intros Hg (m0 & x0 & Hm0 & Hx0).
  destruct (dropna_abs_mid g Hg) as (xs & Hxs & Hpos & Hin).
  unfold summarize_group. cbn [avg_abs_mid max_abs_mid].
  unfold series_mean, series_max. rewrite Hxs.
  destruct xs as [|y xs].
  { specialize (Hin m0 x0 Hm0 Hx0). by apply elem_of_nil in Hin. }
  cbn [map]. rewrite <- (map_cons Fin y xs), length_map.
  change (Fin y :: map Fin xs) with (map Fin (y :: xs)).
  rewrite fold_fadd_fin. cbn [fdivc].
  destruct (fold_max_fin xs y) as (M & HM & Hy & Hall). rewrite HM.
  assert (forall x, x ∈ y :: xs -> 0 <= x <= M) as Hb.
  { intros x Hx. split; [by apply Hpos|].
    apply elem_of_cons in Hx as [-> | Hx]; [done|by apply Hall]. }
  exists ((0 + Rsum (y :: xs)) / INR (length (y :: xs))), M.
  split; [done|]. split; [done|]. split.
  - pose proof (Rsum_bounds (y :: xs) M Hb) as Hs.
    assert (0 < INR (length (y :: xs))) as Hn.
    { cbn [length]. rewrite S_INR. pose proof (pos_INR (length xs)). lra. }
    split.
    + apply Rmult_le_pos; [lra|]. left. by apply Rinv_0_lt_compat.
    + apply (Rmult_le_reg_r (INR (length (y :: xs)))); [done|].
      unfold Rdiv. rewrite Rmult_assoc, Rinv_l by lra. lra.
  - intros m x Hm Hx. apply Hb. by eapply Hin.
Qed.

Lemma summarize_group_avg_max_witness :
  exists a M,
    avg_abs_mid (summarize_group
                   [mkMetrics (Fin (-0.03)) NaN; mkMetrics NaN (Fin 0);
                    mkMetrics (Fin 0.01) (Fin 0)]) = Fin a
    /\ max_abs_mid (summarize_group
                   [mkMetrics (Fin (-0.03)) NaN; mkMetrics NaN (Fin 0);
                    mkMetrics (Fin 0.01) (Fin 0)]) = Fin M
    /\ 0 <= a <= M
    /\ (forall m x,
          m ∈ [mkMetrics (Fin (-0.03)) NaN; mkMetrics NaN (Fin 0);
               mkMetrics (Fin 0.01) (Fin 0)] ->
          gap_mid m = Fin x -> Rabs x <= M).
Proof.
  apply summarize_group_avg_max.
  - repeat (apply Forall_cons; split);
      [right; by eexists|by left|right; by eexists|apply Forall_nil_2].
  - exists (mkMetrics (Fin 0.01) (Fin 0)), 0.01. split; [|reflexivity].
    right. right. left.
Defined.

Lemma pv_of_dividends_failures_witness :
  pv_of_dividends (fun _ => None) (Some sample_divs) 0 "soon" (Fin 0.05)
    = Raise ValueError
  /\ pv_of_dividends (fun _ => None) (Some []) 0 "soon" (Fin 0.05) = Ok (Fin 0).
Proof.
  split.
  - apply (proj1 (pv_of_dividends_failures (fun _ => None) sample_divs 0 "soon"
                    (Fin 0.05))).
    repeat split. discriminate.
  - reflexivity.
Defined.

(** ** Hints and mids *)

(** With a direction hint the mids play no part in the executable gap. *)
Theorem exec_gap_hint_ignores_mids (pi : ParityInputs) (h : string) (c p : pyfloat) :
  parity_gap_executable (set_mids pi c p) (Some h) = parity_gap_executable pi (Some h).
Proof. reflexivity. Qed.

(** ** From a quoted row to the two gaps *)

(** Leaving the overflow of [math.exp] aside: for a row with positive
    finite bids and asks on both sides, bids at
    most asks, and a finite market context with a non-negative stock
    spread, [compute_row] gives two finite gaps, and the executable gap is
    at most the size of the mid gap. *)
Theorem compute_row_exec_below_mid (row common : gmap string pyval)
    (k s t rr d cents cb ca pb pa : R) :
  row !! "strike"%string = Some (Some (Fin k)) ->
  common !! "S"%string = Some (Some (Fin s)) ->
  common !! "tau"%string = Some (Some (Fin t)) ->
  common !! "r"%string = Some (Some (Fin rr)) ->
  get common "pv_div" = Some (Fin d) ->
  get common "stock_spread_cents" = Some (Fin cents) -> 0 <= cents ->
  get row "call_bid" = Some (Fin cb) -> get row "call_ask" = Some (Fin ca) ->
  get row "put_bid" = Some (Fin pb) -> get row "put_ask" = Some (Fin pa) ->
  0 < cb <= ca -> 0 < pb <= pa ->
  exists e g,
    compute_row row common = Ok {| gap_mid := Fin g; gap_exec := Fin e |}
    /\ g = ((cb + ca) / 2 - (pb + pa) / 2) - (s - k * exp (- rr * t) - d)
    /\ e <= Rabs g.
Proof.
  intros Hk Hs Ht Hr Hd Hc Hcents Hcb Hca Hpb Hpa Hcall Hput.
  unfold compute_row.
  rewrite (build_inputs_ok _ _ (Fin k) (Fin s) (Fin t) (Fin rr)) by done.
  rewrite Hd, Hc, Hcb, Hca, Hpb, Hpa.
  rewrite (safe_mid_both _ _ _ cb ca), (safe_mid_both _ _ _ pb pa) by (done || lra).
  rewrite py_or_0_float. rewrite !(py_or_nonzero _ NaN) by lra.
  cbn [rbind isfinite].
  set (c' := if Req_dec_T cents 0 then 1 else cents).
  assert (py_or (Some (Fin cents)) (Fin 1) = Fin c' /\ 0 <= c') as [-> Hc'].
  { unfold c'. destruct (Req_dec_T cents 0) as [-> | Hne].
    - rewrite py_or_zero. split; [done|lra].
    - rewrite py_or_nonzero by done. done. }
  destruct (exec_gap_below_mid_gap s k t rr d ((cb + ca) / 2) ((pb + pa) / 2)
              cb ca pb pa c') as (e & g & He & Hg & Hle & _); [lra..|].
  unfold finite_inputs in He, Hg. cbv zeta. rewrite He, Hg.
  exists e, g. split; [done|]. split; [|done].
  pose proof (gap_mid_finite s k t rr d ((cb + ca) / 2) ((pb + pa) / 2)
                cb ca pb pa c') as Hg'.
  unfold finite_inputs in Hg'. rewrite Hg in Hg'. by injection Hg'.
Qed.

Lemma compute_row_exec_below_mid_witness :
  exists e g,
    compute_row (<["call_bid"%string := Some (Fin 4.9)]> row_no_call_bid) common_ctx
      = Ok {| gap_mid := Fin g; gap_exec := Fin e |}
    /\ g = ((4.9 + 5.1) / 2 - (2.9 + 3.1) / 2) - (100 - 100 * exp (- (0.05) * 0.25) - 0)
    /\ e <= Rabs g.
Proof.
  apply (compute_row_exec_below_mid
           (<["call_bid"%string := Some (Fin 4.9)]> row_no_call_bid) common_ctx
           100 100 0.25 0.05 0 1 4.9 5.1 2.9 3.1); (reflexivity || lra).
Defined.

(** ** Chosen expiries and their time to expiry *)

(** An expiry kept by [choose_expiries] in the automatic mode with a
    non-negative [min_dte] has, at the same instant [now], a time to expiry
    between [min_dte/365.25] and [max_dte/365.25]. *)
Theorem chosen_expiry_tau (to_datetime : string -> option Z)
    (all_exps : list string) (now : Z) (min_dte max_dte : Z)
    (kept : list string) (e : string) :
  (0 <= min_dte)%Z ->
  choose_expiries to_datetime all_exps now None min_dte max_dte = Ok kept ->
  e ∈ kept ->
  exists y, time_to_expiry_years to_datetime now e = Ok (Fin y)
            /\ IZR min_dte / 365.25 <= y <= IZR max_dte / 365.25.
Proof.
  intros Hmin Hch He.
  destruct (choose_loop_result to_datetime now min_dte max_dte all_exps [])
    as [[_ Hr] | Hall].
  { unfold choose_expiries in Hch. by rewrite Hr in Hch. }
  unfold choose_expiries in Hch. rewrite choose_loop_parsed in Hch by done.
  cbn [rbind app] in Hch. injection Hch as <-.
  apply elem_of_take in He as (i & He & _).
  apply list_elem_of_lookup_2, list_elem_of_In, filter_In in He as [_ He].
  unfold dte_ok in He. unfold time_to_expiry_years.
  destruct (to_datetime e) as [t|]; [|done].
  unfold dte_in_range in He. apply andb_prop in He as [H1%Z.leb_le H2%Z.leb_le].
  eexists. split; [reflexivity|]. rewrite Z.max_l by lia.
  apply IZR_le in H1, H2. lra.
Qed.

Lemma chosen_expiry_tau_witness :
  exists y, time_to_expiry_years (table_to_datetime sample_table) 0 "2030-01-18"
              = Ok (Fin y)
            /\ IZR 7 / 365.25 <= y <= IZR 120 / 365.25.
Proof.
  apply (chosen_expiry_tau (table_to_datetime sample_table) sample_table.*1 0 7 120
           ["2030-01-11"; "2030-01-18"]%string "2030-01-18").
  - lia.
  - reflexivity.
  - right. left.
Defined.

(** * The functions with the overflow of [math.exp] *)

(** ** When [math.exp] returns *)

Lemma math_exp_value x y : math_exp x = Ok y -> y = fexp x.
Proof.
  destruct x as [v| | |]; simpl; try (by intros [= <-]).
  destruct (Rle_dec _ _); [by intros [= <-]|done].
Qed.

Lemma exp_returns_value x : exp_returns x -> math_exp x = Ok (fexp x).
Proof. intros [y Hy]. by rewrite Hy, (math_exp_value x y Hy). Qed.

Lemma exp_returns_not_finite x : isfinite x = false -> exp_returns x.
Proof. destruct x; try done; intros _; by eexists. Qed.

Lemma one_le_max_double : 1 <= max_double.
Proof. unfold max_double. apply IZR_le. by vm_compute. Qed.

(** An exponent that is not positive never overflows. *)
Lemma exp_returns_nonpos x : x <= 0 -> exp_returns (Fin x).
Proof.
  intros Hx. unfold exp_returns, math_exp.
  destruct (Rle_dec (exp x) max_double) as [_ | Hn]; [by eexists|].
  exfalso. apply Hn. pose proof (exp_le_mono x 0 Hx) as H. rewrite exp_0 in H.
  pose proof one_le_max_double. lra.
Qed.

Lemma exp_nat_le_pow3 (n : nat) : exp (INR n) <= 3 ^ n.
Proof.
  induction n as [|n IH].
  - simpl. rewrite exp_0. lra.
  - rewrite S_INR, exp_plus. cbn [pow].
    pose proof exp_le_3. pose proof (exp_pos (INR n)). pose proof (exp_pos 1). nra.
Qed.

(** Nor does an exponent up to 640. *)
Lemma exp_returns_small x : x <= 640 -> exp_returns (Fin x).
Proof.
  intros Hx. unfold exp_returns, math_exp.
  destruct (Rle_dec (exp x) max_double) as [_ | Hn]; [by eexists|].
  exfalso. apply Hn.
  apply Rle_trans with (exp (INR 640)).
  { apply exp_le_mono. rewrite INR_IZR_INZ. by simpl. }
  apply Rle_trans with (3 ^ 640); [apply exp_nat_le_pow3|].
  unfold max_double. rewrite pow_IZR. apply IZR_le. by vm_compute.
Qed.

Lemma two_le_exp_1 : 2 <= exp 1.
Proof. pose proof (exp_ineq1_le 1). lra. Qed.

Lemma pow2_le_exp_nat (n : nat) : 2 ^ n <= exp (INR n).
Proof.
  induction n as [|n IH].
  - simpl. rewrite exp_0. lra.
  - rewrite S_INR, exp_plus. cbn [pow].
    pose proof two_le_exp_1. pose proof (pow_lt 2 n ltac:(lra)). nra.
Qed.

(** An exponent from 1030 on does overflow. *)
Lemma math_exp_overflow x : 1030 <= x -> math_exp (Fin x) = Raise OverflowError.
Proof.
  intros Hx. unfold math_exp.
  destruct (Rle_dec (exp x) max_double) as [Hle | _]; [|done].
  exfalso.
  assert (exp (INR 1030) <= exp x) as H1.
  { apply exp_le_mono. rewrite INR_IZR_INZ. by simpl. }
  pose proof (pow2_le_exp_nat 1030) as H2.
  assert (max_double < 2 ^ 1030) as H3.
  { unfold max_double. rewrite pow_IZR. apply IZR_lt. by vm_compute. }
  lra.
Qed.

Lemma theoretical_rhs_py_returns s k t rr d :
  exp_returns (fmul (fneg rr) t) ->
  theoretical_rhs_py s k t rr d = Ok (theoretical_rhs s k t rr d).
Proof.
  intros H%exp_returns_value. unfold theoretical_rhs_py. by rewrite H.
Qed.

Lemma parity_gap_mid_py_returns pi :
  exp_returns (fmul (fneg (r pi)) (tau pi)) ->
  parity_gap_mid_py pi = Ok (parity_gap_mid pi).
Proof.
  intros H. unfold parity_gap_mid_py. by rewrite theoretical_rhs_py_returns.
Qed.

Lemma parity_gap_executable_py_returns pi hint :
  exp_returns (fmul (fneg (r pi)) (tau pi)) ->
  parity_gap_executable_py pi hint = Ok (parity_gap_executable pi hint).
Proof.
  intros H. pose proof (exp_returns_value _ H) as He.
  unfold parity_gap_executable_py, parity_gap_executable.
  destruct hint as [h|]; cbn [rbind].
  - cbn zeta. rewrite He. cbn [rbind].
    repeat match goal with |- context [if ?b then _ else _] => destruct b end; done.
  - rewrite parity_gap_mid_py_returns by done. cbn [rbind]. cbn zeta.
    rewrite He. cbn [rbind].
    repeat match goal with |- context [if ?b then _ else _] => destruct b end; done.
Qed.

Lemma compute_row_py_returns row common pi :
  build_inputs row common = Ok pi ->
  exp_returns (fmul (fneg (r pi)) (tau pi)) ->
  compute_row_py row common = compute_row row common.
Proof.
  intros Hpi H. unfold compute_row_py, compute_row. rewrite Hpi. cbn [rbind].
  rewrite parity_gap_mid_py_returns, parity_gap_executable_py_returns by done.
  done.
Qed.

(** ** The executable gap against the mid gap, with the overflow *)

(** On finite inputs whose bids are at most the mids and whose asks are at
    least the mids, with a non-negative stock spread and an exponent
    [-r*tau] at which [math.exp] returns, both gaps are returned and the
    executable gap in the inferred direction is at most the size of the
    mid gap. *)
Theorem exec_gap_py_below_mid_gap (s k t rr d cm pm cb ca pb pa cents : R) :
  cb <= cm <= ca -> pb <= pm <= pa -> 0 <= cents ->
  exp_returns (Fin (- rr * t)) ->
  exists e g,
    parity_gap_executable_py
      (finite_inputs s k t rr d cm pm cb ca pb pa cents) None = Ok (Fin e)
    /\ parity_gap_mid_py (finite_inputs s k t rr d cm pm cb ca pb pa cents)
       = Ok (Fin g)
    /\ e <= Rabs g.
Proof.
  intros Hc Hp Hcents Hexp.
  destruct (exec_gap_below_mid_gap s k t rr d cm pm cb ca pb pa cents Hc Hp Hcents)
    as (e & g & He & Hg & Hle & _).
  exists e, g.
  rewrite parity_gap_executable_py_returns, parity_gap_mid_py_returns by done.
  by rewrite He, Hg.
Qed.

Lemma exec_gap_py_below_mid_gap_witness :
  exists e g,
    parity_gap_executable_py
      (finite_inputs 100 100 0.25 0.05 0 5 3 4.9 5.1 2.9 3.1 1) None = Ok (Fin e)
    /\ parity_gap_mid_py (finite_inputs 100 100 0.25 0.05 0 5 3 4.9 5.1 2.9 3.1 1)
       = Ok (Fin g)
    /\ e <= Rabs g.
Proof.
  apply exec_gap_py_below_mid_gap; try lra.
  apply exp_returns_nonpos. lra.
Defined.

(** With a hint that is neither ["A"] nor ["B"], [math.exp] is not called:
    the result is 0.0 for every input, also one whose exponent overflows. *)
Theorem exec_gap_py_other_hint (pi : ParityInputs) (h : string) :
  h <> "A"%string -> h <> "B"%string ->
  parity_gap_executable_py pi (Some h) = Ok (Fin 0).
Proof.
  intros HA HB. unfold parity_gap_executable_py. cbn [rbind]. cbn zeta.
  rewrite !bool_decide_eq_false_2; [done| |]; congruence.
Qed.

Lemma exec_gap_py_other_hint_witness :
  parity_gap_executable_py
    (finite_inputs 100 100 1 (-2000) 0 5 3 4.9 5.1 2.9 3.1 1)
    (Some "buy-call-sell-put-sell-stock"%string) = Ok (Fin 0)
  /\ parity_gap_mid_py (finite_inputs 100 100 1 (-2000) 0 5 3 4.9 5.1 2.9 3.1 1)
     = Raise OverflowError.
Proof.
  split.
  - apply exec_gap_py_other_hint; discriminate.
  - unfold parity_gap_mid_py, theoretical_rhs_py, finite_inputs.
    cbn [S K tau r pv_div fneg fmul]. rewrite math_exp_overflow by lra. reflexivity.
Defined.

(** ** [compute_row] with the overflow *)

Lemma build_inputs_floats row common pi :
  build_inputs row common = Ok pi ->
  is_float (row !! "strike"%string) /\ is_float (common !! "S"%string)
  /\ is_float (common !! "tau"%string) /\ is_float (common !! "r"%string).
Proof.
  unfold build_inputs, getitem, is_float.
  destruct (common !! "S"%string) as [s|]; [|done].
  destruct (row !! "strike"%string) as [[k|]|]; try done.
  destruct (common !! "tau"%string) as [t|]; [|done].
  destruct (common !! "r"%string) as [[rr|]|]; try done.
  destruct t as [t|]; [|done]. destruct s as [s|]; [|done].
  intros _. eauto 10.
Qed.

Lemma compute_row_py_ok_inputs row common m :
  compute_row_py row common = Ok m -> exists pi, build_inputs row common = Ok pi.
Proof.
  unfold compute_row_py. destruct (build_inputs row common) as [pi|e]; [eauto|done].
Qed.

(** [compute_row] returns only when the row has a float strike and
    [common] has floats under [S], [tau] and [r], and it does return then
    if [math.exp] returns at [-r*tau].  A [common] without [S] raises
    [KeyError] before the row is looked at, a row without a strike raises
    [KeyError], and a strike that is [None] raises [TypeError]. *)
Theorem compute_row_py_failures (row common : gmap string pyval) :
  ((exists m, compute_row_py row common = Ok m) ->
     is_float (row !! "strike"%string) /\ is_float (common !! "S"%string)
     /\ is_float (common !! "tau"%string) /\ is_float (common !! "r"%string))
  /\ (forall k s t rr : pyfloat,
        row !! "strike"%string = Some (Some k) ->
        common !! "S"%string = Some (Some s) ->
        common !! "tau"%string = Some (Some t) ->
        common !! "r"%string = Some (Some rr) ->
        exp_returns (fmul (fneg rr) t) ->
        exists m, compute_row_py row common = Ok m)
  /\ (common !! "S"%string = None -> compute_row_py row common = Raise KeyError)
  /\ (is_Some (common !! "S"%string) -> row !! "strike"%string = None ->
      compute_row_py row common = Raise KeyError)
  /\ (is_Some (common !! "S"%string) -> row !! "strike"%string = Some None ->
      compute_row_py row common = Raise TypeError).
Proof.
  split; [|split].
  - intros [m Hm]. apply compute_row_py_ok_inputs in Hm as [pi Hpi].
    by eapply build_inputs_floats.
  - intros k s t rr Hk Hs Ht Hr Hexp.
    pose proof (build_inputs_ok _ _ k s t rr Hk Hs Ht Hr) as Hpi.
    rewrite (compute_row_py_returns _ _ _ Hpi) by done.
    unfold compute_row. rewrite Hpi. cbn [rbind]. eauto.
  - unfold compute_row_py, build_inputs, getitem. repeat split.
    + by intros ->.
    + intros [s ->] ->. done.
    + intros [s ->] ->. done.
Qed.

Lemma compute_row_py_failures_witness :
  (exists m, compute_row_py row_no_call_bid common_ctx = Ok m)
  /\ compute_row_py row_strike_only ∅ = Raise KeyError
  /\ compute_row_py ∅ common_ctx = Raise KeyError
  /\ compute_row_py (<["strike"%string := None]> ∅) common_ctx = Raise TypeError.
Proof.
  split; [|split; [|split]].
  - apply (proj1 (proj2 (compute_row_py_failures row_no_call_bid common_ctx))
             (Fin 100) (Fin 100) (Fin 0.25) (Fin 0.05)); try reflexivity.
    apply exp_returns_nonpos. lra.
  - apply (proj1 (proj2 (proj2 (compute_row_py_failures row_strike_only ∅)))).
    reflexivity.
  - apply (proj1 (proj2 (proj2 (proj2 (compute_row_py_failures ∅ common_ctx))))).
    + exists (Some (Fin 100)). reflexivity.
    + reflexivity.
  - apply (proj2 (proj2 (proj2 (proj2 (compute_row_py_failures
                                          (<["strike"%string := None]> ∅)
                                          common_ctx))))).
    + exists (Some (Fin 100)). reflexivity.
    + reflexivity.
Defined.

(** With a finite strike, spot, time to expiry and rate, a [pv_div] that is
    finite, [None] or absent, and an exponent [-r*tau] at which [math.exp]
    returns, [compute_row] returns, and its mid gap is NaN exactly when the
    call side or the put side has no mid (neither a usable bid and ask nor
    a usable last). *)
Theorem compute_row_py_gap_mid_known (row common : gmap string pyval)
    (k s t rr : R) :
  row !! "strike"%string = Some (Some (Fin k)) ->
  common !! "S"%string = Some (Some (Fin s)) ->
  common !! "tau"%string = Some (Some (Fin t)) ->
  common !! "r"%string = Some (Some (Fin rr)) ->
  leg_ok (get common "pv_div") ->
  exp_returns (Fin (- rr * t)) ->
  exists m, compute_row_py row common = Ok m
    /\ (gap_mid m = NaN
        <-> has_mid row "call_bid" "call_ask" "call_lastPrice"
            && has_mid row "put_bid" "put_ask" "put_lastPrice" = false).
Proof.
  intros Hk Hs Ht Hr Hd Hexp.
  pose proof (build_inputs_ok _ _ (Fin k) (Fin s) (Fin t) (Fin rr) Hk Hs Ht Hr) as Hpi.
  rewrite (compute_row_py_returns _ _ _ Hpi) by done.
  destruct (compute_row_gap_mid_known row common k s t rr Hk Hs Ht Hr Hd)
    as (m & Hm & Hnan & _).
  by exists m.
Qed.

Lemma compute_row_py_gap_mid_known_witness :
  exists m, compute_row_py row_strike_only common_ctx = Ok m
    /\ (gap_mid m = NaN
        <-> has_mid row_strike_only "call_bid" "call_ask" "call_lastPrice"
            && has_mid row_strike_only "put_bid" "put_ask" "put_lastPrice" = false).
Proof.
  apply (compute_row_py_gap_mid_known row_strike_only common_ctx 100 100 0.25 0.05);
    try reflexivity.
  - right. exists 0. reflexivity.
  - apply exp_returns_nonpos. lra.
Defined.

(** For a row with positive finite bids and asks on both sides, bids at
    most asks, a finite market context with a non-negative stock spread and
    an exponent [-r*tau] at which [math.exp] returns, [compute_row] returns
    the mid gap of the two means and an executable gap that is at most the
    size of the mid gap. *)
Theorem compute_row_py_exec_below_mid (row common : gmap string pyval)
    (k s t rr d cents cb ca pb pa : R) :
  row !! "strike"%string = Some (Some (Fin k)) ->
  common !! "S"%string = Some (Some (Fin s)) ->
  common !! "tau"%string = Some (Some (Fin t)) ->
  common !! "r"%string = Some (Some (Fin rr)) ->
  get common "pv_div" = Some (Fin d) ->
  get common "stock_spread_cents" = Some (Fin cents) -> 0 <= cents ->
  get row "call_bid" = Some (Fin cb) -> get row "call_ask" = Some (Fin ca) ->
  get row "put_bid" = Some (Fin pb) -> get row "put_ask" = Some (Fin pa) ->
  0 < cb <= ca -> 0 < pb <= pa ->
  exp_returns (Fin (- rr * t)) ->
  exists e g,
    compute_row_py row common = Ok {| gap_mid := Fin g; gap_exec := Fin e |}
    /\ g = ((cb + ca) / 2 - (pb + pa) / 2) - (s - k * exp (- rr * t) - d)
    /\ e <= Rabs g.
Proof.
  intros Hk Hs Ht Hr Hd Hc Hcents Hcb Hca Hpb Hpa Hcall Hput Hexp.
  pose proof (build_inputs_ok _ _ (Fin k) (Fin s) (Fin t) (Fin rr) Hk Hs Ht Hr) as Hpi.
  rewrite (compute_row_py_returns _ _ _ Hpi) by done.
  by apply (compute_row_exec_below_mid row common k s t rr d cents cb ca pb pa).
Qed.

Lemma compute_row_py_exec_below_mid_witness :
  exists e g,
    compute_row_py (<["call_bid"%string := Some (Fin 4.9)]> row_no_call_bid) common_ctx
      = Ok {| gap_mid := Fin g; gap_exec := Fin e |}
    /\ g = ((4.9 + 5.1) / 2 - (2.9 + 3.1) / 2) - (100 - 100 * exp (- (0.05) * 0.25) - 0)
    /\ e <= Rabs g.
Proof.
  apply (compute_row_py_exec_below_mid
           (<["call_bid"%string := Some (Fin 4.9)]> row_no_call_bid) common_ctx
           100 100 0.25 0.05 0 1 4.9 5.1 2.9 3.1); try (reflexivity || lra).
  apply exp_returns_nonpos. lra.
Defined.
